(** * datezip MCP server: a shallow embedding of [src/mcp/server.py]

    The server is a thin shim: each tool builds an argument vector for the
    external [datezip] command, runs it, and either formats the command's
    output or parses it line by line with a regular expression.

    The embedding follows the file top to bottom.

    - [PyStr]: Python [str] values as lists of code points, with the
      [str] methods the server calls ([strip], [splitlines], [join]) and
      the truthiness tests behind [if files:] and [stderr or stdout].
    - [Sre]: the fragment of Python's [re] used by the two compiled
      patterns, as a backtracking matcher with capture groups.
    - [OS]: directories and files, [tempfile.mkdtemp], [shutil.rmtree],
      [os.path.join], [os.path.exists], [open(...).read()].
    - [Server]: the tools themselves, in a state-and-exception monad over
      the file system and the log of [datezip] invocations. *)

From Stdlib Require Import NArith ZArith Ascii String.
From Stdlib Require Import DecimalString DecimalZ DecimalPos.
From stdpp Require Import base option list gmap.

Set Default Proof Using "Type".

(* ===================================================================== *)
(** * Part I -- definitions                                               *)
(* ===================================================================== *)

(** ** Python strings *)

Module PyStr.

(** A Python [str] is a sequence of Unicode code points. *)
Abbreviation char := N (only parsing).
Abbreviation str := (list N) (only parsing).

(** String literals of the source, written as Rocq strings. *)
Fixpoint u (s : string) : str :=
  match s with
  | EmptyString => []
  | String a s' => N_of_ascii a :: u s'
  end.

Definition nl : str := [10%N].

Definition between (lo hi c : N) : bool := (lo <=? c)%N && (c <=? hi)%N.

(** [str.isspace] on one code point ([Py_UNICODE_ISSPACE]): the
    characters that [str.strip()] removes and that [\s] matches. *)
Definition is_space (c : N) : bool :=
  between 9 13 c || between 28 32 c || (c =? 133)%N || (c =? 160)%N
  || (c =? 5760)%N || between 8192 8202 c || (c =? 8232)%N
  || (c =? 8233)%N || (c =? 8239)%N || (c =? 8287)%N || (c =? 12288)%N.

(** Line boundaries of [str.splitlines] ([Py_UNICODE_ISLINEBREAK]). *)
Definition is_linebreak (c : N) : bool :=
  between 10 13 c || between 28 30 c || (c =? 133)%N
  || (c =? 8232)%N || (c =? 8233)%N.

(** [[0-9]] *)
Definition is_digit09 (c : N) : bool := between 48 57 c.

(** [.] without DOTALL: anything but a newline. *)
Definition is_dot (c : N) : bool := negb (c =? 10)%N.

Fixpoint lstrip (s : str) : str :=
  match s with
  | c :: t => if is_space c then lstrip t else s
  | [] => []
  end.

Definition rstrip (s : str) : str := reverse (lstrip (reverse s)).

(** [s.strip()] *)
Definition strip (s : str) : str := rstrip (lstrip s).

(** [s.splitlines()]: [cur] holds the current line, reversed.  A line is
    closed at every line boundary, [\r\n] counting as one; what follows
    the last boundary is a line only when it is not empty. *)
Fixpoint splitlines_from (cur : str) (s : str) : list str :=
  match s with
  | [] => match cur with [] => [] | _ => [reverse cur] end
  | c :: t =>
      if is_linebreak c then
        reverse cur ::
          match t with
          | c' :: t' =>
              if (c =? 13)%N && (c' =? 10)%N then splitlines_from [] t'
              else splitlines_from [] t
          | [] => splitlines_from [] t
          end
      else splitlines_from (c :: cur) t
  end.

Definition splitlines (s : str) : list str := splitlines_from [] s.

(** [sep.join(xs)] *)
Fixpoint join (sep : str) (xs : list str) : str :=
  match xs with
  | [] => []
  | [x] => x
  | x :: rest => x ++ sep ++ join sep rest
  end.

(** Truth value of a [str]: the empty string is false. *)
Definition truthy (s : str) : bool :=
  match s with [] => false | _ => true end.

(** Truth value of an [Optional[...]] argument: [None] and the empty
    value are both false. *)
Definition truthy_opt {A} (o : option (list A)) : bool :=
  match o with Some (_ :: _) => true | _ => false end.

(** [a or b] on strings. *)
Definition or_ (a b : str) : str := if truthy a then a else b.

(** The decimal digits of an [int], with a minus sign below zero. *)
Definition str_of_int (n : Z) : str := u (NilZero.string_of_int (Z.to_int n)).

(** How many decimal digits [n] has, the sign apart. *)
Definition int_digits (n : Z) : nat := length (str_of_int (Z.abs n)).

(** Whether [n] has more digits than the limit on conversions between
    [int] and [str] allows ([None]: the interpreter has no limit). *)
Definition too_long (limit : option nat) (n : Z) : bool :=
  match limit with
  | Some m => bool_decide (m < int_digits n)
  | None => false
  end.

(** What reading a file in text mode does to line ends: [\r\n] and a
    lone [\r] both become [\n]. *)
Fixpoint universal_newlines (s : str) : str :=
  match s with
  | [] => []
  | c :: t =>
      if (c =? 13)%N then
        10%N :: match t with
                | c' :: t' =>
                    if (c' =? 10)%N then universal_newlines t'
                    else universal_newlines t
                | [] => universal_newlines t
                end
      else c :: universal_newlines t
  end.

End PyStr.

Import PyStr.

(** ** The [re] fragment used by the server *)

Module Sre.

(** Patterns.  [Repeat lo hi p] is a greedy repetition of a one-character
    class, [lo] to [hi] times ([hi = None]: unbounded): [\d+] is
    [Repeat 1 None], [[0-9]{8}] is [Repeat 8 (Some 8)].  Both compiled
    patterns of the server repeat single characters only. *)
Inductive regex :=
| Eps                                   (* the empty pattern *)
| Bol                                   (* ^ *)
| Eol                                   (* $ *)
| Lit (c : N)                           (* one literal character *)
| Cls (p : N -> bool)                   (* a character class *)
| Cat (r1 r2 : regex)
| Alt (r1 r2 : regex)                   (* r1|r2 *)
| Repeat (lo : nat) (hi : option nat) (p : N -> bool)
| Group (i : nat) (r : regex).          (* (r), numbered from 1 *)

(** A literal word. *)
Fixpoint Str (w : str) : regex :=
  match w with
  | [] => Eps
  | c :: t => Cat (Lit c) (Str t)
  end.

(** Matcher state: offset into the subject, what is left of it, and the
    groups closed so far. *)
Record mstate := MState { pos : nat; rest : str; caps : gmap nat str }.

Definition advance (n : nat) (st : mstate) : mstate :=
  {| pos := pos st + n; rest := drop n (rest st); caps := caps st |}.

Definition set_cap (i : nat) (w : str) (st : mstate) : mstate :=
  {| pos := pos st; rest := rest st; caps := <[i := w]> (caps st) |}.

Definition under_cap (hi : option nat) (n : nat) : bool :=
  match hi with None => true | Some h => n <? h end.

(** Length of the longest run of [p] at the head of [l], at most [hi]. *)
Fixpoint count_run (p : N -> bool) (hi : option nat) (n : nat) (l : str) : nat :=
  match l with
  | c :: t => if p c && under_cap hi n then count_run p hi (S n) t else n
  | [] => n
  end.

(** Try the continuation after [lo + extra] repetitions, then after one
    fewer, down to [lo]. *)
Fixpoint try_down {R} (k : nat -> option R) (lo extra : nat) : option R :=
  match k (lo + extra) with
  | Some r => Some r
  | None => match extra with 0 => None | S e => try_down k lo e end
  end.

(** Backtracking matcher in continuation-passing style: [k] is the rest
    of the pattern.  The first success in the engine's order of
    preference (left alternative first, longest repetition first) wins. *)
Fixpoint sre_match (r : regex) (st : mstate)
    (k : mstate -> option mstate) : option mstate :=
  match r with
  | Eps => k st
  | Bol => if decide (pos st = 0) then k st else None
  | Eol =>
      match rest st with
      | [] => k st
      | [c] => if (c =? 10)%N then k st else None
      | _ => None
      end
  | Lit c =>
      match rest st with
      | c' :: _ => if (c' =? c)%N then k (advance 1 st) else None
      | [] => None
      end
  | Cls p =>
      match rest st with
      | c' :: _ => if p c' then k (advance 1 st) else None
      | [] => None
      end
  | Cat r1 r2 => sre_match r1 st (fun st' => sre_match r2 st' k)
  | Alt r1 r2 =>
      match sre_match r1 st k with
      | Some m => Some m
      | None => sre_match r2 st k
      end
  | Repeat lo hi p =>
      let n := count_run p hi 0 (rest st) in
      if n <? lo then None
      else try_down (fun i => k (advance i st)) lo (n - lo)
  | Group i r =>
      sre_match r st
        (fun st' => k (set_cap i (take (pos st' - pos st) (rest st)) st'))
  end.

(** [pattern.match(s)]: anchored at offset 0, free at the end. *)
Definition re_match (pat : regex) (s : str) : option mstate :=
  sre_match pat {| pos := 0; rest := s; caps := ∅ |} Some.

(** [m.group(i)]; [None] when the group took no part in the match. *)
Definition group (m : mstate) (i : nat) : option str := caps m !! i.

(** What a pattern matches, as a relation: [matches r at w post g g']
    says that [r] matches the word [w] found at offset [at] and followed
    by [post], taking the groups from [g] to [g']. *)
Fixpoint matches (r : regex) (at_ : nat) (w post : str)
    (g g' : gmap nat str) : Prop :=
  match r with
  | Eps => w = [] ∧ g' = g
  | Bol => at_ = 0 ∧ w = [] ∧ g' = g
  | Eol => w = [] ∧ (post = [] ∨ post = [10%N]) ∧ g' = g
  | Lit c => w = [c] ∧ g' = g
  | Cls p => (∃ c, w = [c] ∧ p c = true) ∧ g' = g
  | Cat r1 r2 =>
      ∃ w1 w2 gm, w = w1 ++ w2
        ∧ matches r1 at_ w1 (w2 ++ post) g gm
        ∧ matches r2 (at_ + length w1) w2 post gm g'
  | Alt r1 r2 => matches r1 at_ w post g g' ∨ matches r2 at_ w post g g'
  | Repeat lo hi p =>
      lo ≤ length w ∧ (∀ h, hi = Some h → length w ≤ h)
      ∧ Forall (fun c => p c = true) w ∧ g' = g
  | Group i r => ∃ g1, matches r at_ w post g g1 ∧ g' = <[i := w]> g1
  end.

(** [prefers r n w post g g1]: at offset [n] of [w ++ post] the matcher
    settles on the match of [r] that consumes [w] and leaves the groups
    [g1], as soon as the rest of the pattern accepts what follows. *)
Definition prefers (r : regex) (n : nat) (w post : str)
    (g g1 : gmap nat str) : Prop :=
  forall k res,
    k {| pos := n + length w; rest := post; caps := g1 |} = Some res ->
    sre_match r {| pos := n; rest := w ++ post; caps := g |} k = Some res.

End Sre.

Import Sre.

(** ** Exceptions and results *)

Inductive exn :=
| RuntimeError (msg : str)
| FileNotFoundError
| FileExistsError
| NotADirectoryError
| IsADirectoryError
| ValueError
| UnicodeDecodeError
| OtherError (tag : nat).

Inductive result (A : Type) :=
| Ok (a : A)
| Raise (e : exn).
Arguments Ok {A} a.
Arguments Raise {A} e.

(** [str(n)] for an [int]: the conversion is refused, with [ValueError],
    for a number of more digits than the limit allows. *)
Definition str_int (limit : option nat) (n : Z) : result str :=
  if too_long limit n then Raise ValueError else Ok (str_of_int n).

(** ** The file system, as far as the server touches it *)

(** Paths are taken as they are spelled: the model does not identify two
    spellings of one path (a trailing separator, [.] or [..] parts), and
    it has neither links nor permissions.  [rmtree] succeeds whenever its
    argument is a directory. *)

Module OS.

Record FS := MkFS {
  dirs : gset (list N);          (* existing directories *)
  files : gmap (list N) (list N) (* regular files and their bytes *)
}.

Definition is_dir (fs : FS) (p : str) : bool := bool_decide (p ∈ dirs fs).
Definition is_file (fs : FS) (p : str) : bool :=
  bool_decide (is_Some (files fs !! p)).

(** [os.path.exists(p)] *)
Definition path_exists (fs : FS) (p : str) : bool := is_dir fs p || is_file fs p.

Definition sep : N := 47%N.

Definition starts_with_sep (b : str) : bool :=
  match b with c :: _ => (c =? sep)%N | [] => false end.

Definition ends_with_sep (a : str) : bool :=
  match last a with Some c => (c =? sep)%N | None => false end.

(** [os.path.join(a, b)] of [posixpath]: an absolute [b] replaces [a]. *)
Definition path_join (a b : str) : str :=
  if starts_with_sep b then b
  else if negb (truthy a) || ends_with_sep a then a ++ b
  else a ++ [sep] ++ b.

(** [p] lies strictly below directory [d]. *)
Definition below (d p : str) : Prop := (d ++ [sep]) `prefix_of` p.

#[global] Instance below_dec (d p : str) : Decision (below d p).
Proof. unfold below. apply _. Defined.

(** [os.mkdir(d)] as [tempfile.mkdtemp] uses it. *)
Definition mkdir (d : str) (fs : FS) : FS :=
  {| dirs := {[d]} ∪ dirs fs; files := files fs |}.

(** The tree rooted at [d] is gone: [d] itself and all below it. *)
Definition remove_tree (d : str) (fs : FS) : FS :=
  {| dirs := filter (fun p => p ≠ d ∧ ¬ below d p) (dirs fs);
     files := filter (fun pc => pc.1 ≠ d ∧ ¬ below d pc.1) (files fs) |}.

(** [shutil.rmtree(d)]: raises when [d] is not a directory. *)
Definition rmtree (d : str) (fs : FS) : result unit * FS :=
  if is_dir fs d then (Ok tt, remove_tree d fs)
  else if is_file fs d then (Raise NotADirectoryError, fs)
  else (Raise FileNotFoundError, fs).

(** [open(p, 'r').read()]: the bytes of the file are decoded, which may
    fail, and the line ends of the text are translated. *)
Definition read_text (decode : list N -> option str) (p : str) (fs : FS)
    : result str :=
  match files fs !! p with
  | Some bytes =>
      match decode bytes with
      | Some text => Ok (universal_newlines text)
      | None => Raise UnicodeDecodeError
      end
  | None => if is_dir fs p then Raise IsADirectoryError
            else Raise FileNotFoundError
  end.

(** A relative name that walks down only: no empty part, no [.], no
    [..], and no separator at either end. *)
Fixpoint name_parts (cur : str) (s : str) : list str :=
  match s with
  | [] => [reverse cur]
  | c :: t => if (c =? sep)%N then reverse cur :: name_parts [] t
              else name_parts (c :: cur) t
  end.

Definition plain_relative (name : str) : bool :=
  forallb (fun part => negb (bool_decide (part = [])
                            || bool_decide (part = [46%N])
                            || bool_decide (part = [46%N; 46%N])))
    (name_parts [] name).

(** [tempfile.mkdtemp()]: candidate names are tried in turn and the first
    one that does not exist yet is created; with none usable the call
    raises [FileExistsError]. *)
Definition mkdtemp (candidates : list str) (fs : FS) : result str * FS :=
  match List.find (fun d => negb (path_exists fs d)) candidates with
  | Some d => (Ok d, mkdir d fs)
  | None => (Raise FileExistsError, fs)
  end.

End OS.

Import OS.

(** ** The world the tools run in *)

(** What lies outside the server: the [datezip] process (exit code, decoded
    standard output and standard error, and its effect on the file system;
    or the exception raised when the process cannot be run or its output
    cannot be decoded), the names [mkdtemp] draws, the Unicode table of
    decimal digits behind [\d], the decoding of a file's bytes in the
    encoding of the locale ([None]: the bytes do not decode), and
    [sys.get_int_max_str_digits()], the limit on the digits of an [int]
    that [str] converts (4300 unless configured; [None] where the
    interpreter has no limit or it is switched off). *)
Class Env := {
  datezip : list str -> FS -> result (Z * str * str) * FS;
  tmp_candidates : FS -> list str;
  unicode_decimal : N -> bool;
  decode_text : list N -> option str;
  int_max_str_digits : option nat
}.

Record World := MkWorld {
  fs : FS;
  invocations : list (list str)   (* argument vectors passed to datezip *)
}.

(** State and exceptions. *)
Definition M (A : Type) : Type := World -> result A * World.

Definition ret {A} (a : A) : M A := fun w => (Ok a, w).
Definition raise {A} (e : exn) : M A := fun w => (Raise e, w).
Definition bind {A B} (m : M A) (f : A -> M B) : M B :=
  fun w => match m w with
           | (Ok a, w') => f a w'
           | (Raise e, w') => (Raise e, w')
           end.

(** [try: body finally: cleanup].  The cleanup runs however the body
    ends; an exception raised by the cleanup replaces the body's outcome. *)
Definition try_finally {A} (body : M A) (cleanup : M unit) : M A :=
  fun w => match body w with
           | (r, w1) =>
               match cleanup w1 with
               | (Ok _, w2) => (r, w2)
               | (Raise e, w2) => (Raise e, w2)
               end
           end.

#[global] Instance M_ret : MRet M := @ret.
#[global] Instance M_bind : MBind M := fun A B f m => bind m f.

Declare Scope re_scope.
Delimit Scope re_scope with re.
Infix "⋅" := Cat (at level 40, left associativity) : re_scope.

Definition lift_fs {A} (f : FS -> result A * FS) : M A :=
  fun w => match f (fs w) with
           | (r, fs') => (r, {| fs := fs'; invocations := invocations w |})
           end.

(** ** The server *)

Section Server.
Context `{Env}.

(** [run_datezip]: run the command, strip both outputs.  Every
    call is recorded with its argument vector. *)
Definition run_datezip (args : list str) : M (Z * str * str) :=
  fun w =>
    match datezip args (fs w) with
    | (r, fs') =>
        let w' := {| fs := fs'; invocations := invocations w ++ [args] |} in
        match r with
        | Ok (code, stdout, stderr) => (Ok (code, strip stdout, strip stderr), w')
        | Raise e => (Raise e, w')
        end
    end.

(** *** create_backup *)

Definition create_backup_args (mode : str) : list str :=
  let args := [] in
  if decide (mode = u "full") then args ++ [u "--full"]
  else if decide (mode = u "inc") then args ++ [u "--inc"]
  else args.

Definition create_backup (mode : str) : M str :=
  '(code, stdout, stderr) ← run_datezip (create_backup_args mode);
  if decide (code ≠ 0%Z)
  then mret (u "Backup failed:" ++ nl ++ or_ stderr stdout)
  else mret (u "Backup successful:" ++ nl ++ stdout).

(** *** list_backups *)

Record Backup := MkBackup {
  filename : option str;
  timestamp : option str;
  type_ : option str
}.

(** [^\[\d+\]\s+(datezip_([0-9]{8}_[0-9]{6})_(FULL|INC)\.zip)] *)
Definition backup_pattern : regex :=
  (Bol ⋅ Lit 91 ⋅ Repeat 1 None unicode_decimal ⋅ Lit 93
   ⋅ Repeat 1 None is_space
   ⋅ Group 1
       (Str (u "datezip_")
        ⋅ Group 2 (Repeat 8 (Some 8) is_digit09 ⋅ Lit 95
                   ⋅ Repeat 6 (Some 6) is_digit09)
        ⋅ Lit 95
        ⋅ Group 3 (Alt (Str (u "FULL")) (Str (u "INC")))
        ⋅ Lit 46 ⋅ Str (u "zip")))%re.

(** One turn of the loop over [stdout.splitlines()]. *)
Definition list_backups_step (backups : list Backup) (line : str) : list Backup :=
  match re_match backup_pattern (strip line) with
  | Some m =>
      backups ++ [{| filename := group m 1;
                     timestamp := group m 2;
                     type_ := group m 3 |}]
  | None => backups
  end.

Definition list_backups : M (list Backup) :=
  '(code, stdout, stderr) ← run_datezip [u "--list"];
  if decide (code ≠ 0%Z)
  then raise (RuntimeError (u "Failed to list backups: " ++ stderr))
  else mret (foldl list_backups_step [] (splitlines stdout)).

(** *** get_history *)

Record HistoryEntry := MkHistoryEntry {
  h_timestamp : option str;
  h_status : str;
  h_file : option str
}.

Definition get_history_args (files : option (list str))
    (from_ts to_ts : option str) : list str :=
  let args := [u "--history"] in
  let args := if truthy_opt files
              then args ++ [u "--files"; join (u ",") (default [] files)]
              else args in
  let args := if truthy_opt from_ts
              then args ++ [u "--from"; default [] from_ts]
              else args in
  let args := if truthy_opt to_ts
              then args ++ [u "--to"; default [] to_ts]
              else args in
  args.

(** [^([0-9]{8}_[0-9]{6})\s+([\+\.])\s+(.+)$] *)
Definition history_pattern : regex :=
  (Bol
   ⋅ Group 1 (Repeat 8 (Some 8) is_digit09 ⋅ Lit 95
              ⋅ Repeat 6 (Some 6) is_digit09)
   ⋅ Repeat 1 None is_space
   ⋅ Group 2 (Cls (fun c => (c =? 43)%N || (c =? 46)%N))
   ⋅ Repeat 1 None is_space
   ⋅ Group 3 (Repeat 1 None is_dot)
   ⋅ Eol)%re.

Definition get_history_step (history : list HistoryEntry) (line : str)
    : list HistoryEntry :=
  match re_match history_pattern (strip line) with
  | Some m =>
      history ++ [{| h_timestamp := group m 1;
                     h_status := if decide (group m 2 = Some (u "+"))
                                 then u "new" else u "modified";
                     h_file := group m 3 |}]
  | None => history
  end.

Definition get_history (files : option (list str))
    (from_ts to_ts : option str) : M (list HistoryEntry) :=
  '(code, stdout, stderr) ← run_datezip (get_history_args files from_ts to_ts);
  if decide (code ≠ 0%Z)
  then raise (RuntimeError (u "Failed to get history: " ++ stderr))
  else mret (foldl get_history_step [] (splitlines stdout)).

(** *** get_historical_content *)

Definition get_historical_content_args (timestamp filename tmp_dir : str)
    : list str :=
  [u "--restore-time"; timestamp; u "--files"; filename;
   u "--dest"; tmp_dir; u "--restore-type"; u "e"].

Definition get_historical_content (timestamp filename : str) : M str :=
  tmp_dir ← (fun w => lift_fs (mkdtemp (tmp_candidates (fs w))) w);
  try_finally
    ('(code, stdout, stderr) ←
       run_datezip (get_historical_content_args timestamp filename tmp_dir);
     if decide (code ≠ 0%Z)
     then mret (u "Error retrieving historical content: " ++ or_ stderr stdout)
     else
       let target_path := path_join tmp_dir filename in
       found ← (fun w => (Ok (path_exists (fs w) target_path), w));
       if found : bool
       then lift_fs (fun s => (read_text decode_text target_path s, s))
       else mret (u "Error: File '" ++ filename
                  ++ u "' not found in archive at timestamp "
                  ++ timestamp ++ u "."))
    (lift_fs (rmtree tmp_dir)).

(** *** restore_state *)

Definition restore_state_args (timestamp : str) (files : option (list str))
    (restore_type : str) : list str :=
  let args := [u "--restore-time"; timestamp; u "--restore-type"; restore_type] in
  if truthy_opt files
  then args ++ [u "--files"; join (u ",") (default [] files)]
  else args.

Definition restore_state (timestamp : str) (files : option (list str))
    (restore_type : str) : M str :=
  '(code, stdout, stderr) ←
    run_datezip (restore_state_args timestamp files restore_type);
  if decide (code ≠ 0%Z)
  then mret (u "Restore failed:" ++ nl ++ or_ stderr stdout)
  else mret (u "Restore successful:" ++ nl ++ stdout).

(** *** cleanup_backups *)

(** The list display is evaluated from left to right; a refused
    conversion ends it. *)
Definition cleanup_backups_args (keep_full keep_days : Z) : result (list str) :=
  match str_int int_max_str_digits keep_full with
  | Raise e => Raise e
  | Ok full =>
      match str_int int_max_str_digits keep_days with
      | Raise e => Raise e
      | Ok days =>
          Ok [u "--cleanup"; u "--keep-full"; full; u "--keep-days"; days]
      end
  end.

Definition cleanup_backups (keep_full keep_days : Z) : M str :=
  args ← (fun w => (cleanup_backups_args keep_full keep_days, w));
  '(code, stdout, stderr) ← run_datezip args;
  if decide (code ≠ 0%Z)
  then mret (u "Cleanup failed:" ++ nl ++ or_ stderr stdout)
  else mret (u "Cleanup successful:" ++ nl ++ stdout).

End Server.

(** ** The shapes the specification names *)

Section Shapes.
Context `{Env}.

(** [YYYYMMDD_HHMMSS]: eight digits, an underscore, six digits. *)
Definition is_timestamp (ts : str) : bool :=
  bool_decide (length ts = 15)
  && forallb is_digit09 (take 8 ts)
  && bool_decide (ts !! 8 = Some 95%N)
  && forallb is_digit09 (drop 9 ts).

(** [datezip_<timestamp>_<type>.zip] *)
Definition backup_name (ts ty : str) : str :=
  u "datezip_" ++ ts ++ u "_" ++ ty ++ u ".zip".

Definition all_of (p : N -> bool) (w : str) : Prop :=
  Forall (fun c => p c = true) w.

(** An indexed line of the [--list] output: [[<digits>]], white space,
    the archive name; anything may follow. *)
Definition backup_line (line ts ty : str) : Prop :=
  exists idx ws tail,
    line = u "[" ++ idx ++ u "]" ++ ws ++ backup_name ts ty ++ tail
    /\ idx <> [] /\ all_of unicode_decimal idx
    /\ ws <> [] /\ all_of is_space ws
    /\ is_timestamp ts = true
    /\ (ty = u "FULL" \/ ty = u "INC").

(** A line of the [--history] output: timestamp, white space, the marker,
    white space, and the file as the rest of the line. *)
Definition history_line (line ts : str) (marker : N) (file : str) : Prop :=
  exists ws1 ws2,
    line = ts ++ ws1 ++ [marker] ++ ws2 ++ file
    /\ is_timestamp ts = true
    /\ ws1 <> [] /\ all_of is_space ws1
    /\ (marker = 43%N \/ marker = 46%N)
    /\ ws2 <> [] /\ all_of is_space ws2
    /\ file <> [].

(** No character of [l] is a line boundary. *)
Definition no_linebreak (l : str) : Prop :=
  all_of (fun c => negb (is_linebreak c)) l.

(** [t] is [raw] without the white space around it. *)
Definition trimmed (raw t : str) : Prop :=
  (exists l r, raw = l ++ t ++ r /\ all_of is_space l /\ all_of is_space r)
  /\ (forall c, head t = Some c -> is_space c = false)
  /\ (forall c, last t = Some c -> is_space c = false).

(** What a line of the [--list] output stands for. *)
Definition backup_of_line (line : str) (b : Backup) : Prop :=
  exists ts ty,
    backup_line (strip line) ts ty
    /\ filename b = Some (backup_name ts ty)
    /\ timestamp b = Some ts
    /\ type_ b = Some ty.

(** What a line of the [--history] output stands for. *)
Definition entry_of_line (line : str) (e : HistoryEntry) : Prop :=
  exists ts mk file,
    history_line (strip line) ts mk file
    /\ all_of is_dot file
    /\ h_timestamp e = Some ts
    /\ h_status e = (if decide (mk = 43%N) then u "new" else u "modified")
    /\ h_file e = Some file.

(** [picks R lines out]: going down [lines], [out] has one element for
    each line that [R] relates to something, related to it by [R], in
    the order of the lines, and nothing for the other lines. *)
Inductive picks {B} (R : str -> B -> Prop) : list str -> list B -> Prop :=
| picks_nil : picks R [] []
| picks_take line b lines out :
    R line b -> picks R lines out -> picks R (line :: lines) (b :: out)
| picks_skip line lines out :
    (forall b, ~ R line b) -> picks R lines out -> picks R (line :: lines) out.

(** Where the white space at the head of [s] ends. *)
Definition stops (p : N -> bool) (s : str) : Prop :=
  forall c, head s = Some c -> p c = false.

End Shapes.

(** ** Sample worlds *)

(** Small worlds on which the tools are run further down.  The archive
    store behind [Demo.env] holds one full and one incremental backup of
    a single file, [src/main.py]. *)
Module Demo.

Definition tmp : str := u "/tmp/tmpq8l2x6dz".
Definition ts1 : str := u "20240216_143000".
Definition ts2 : str := u "20240217_090000".
Definition live : str := u "/work/src/main.py".

(** The live workspace: one file, being edited. *)
Definition disk : FS :=
  {| dirs := {[ u "/tmp"; u "/work"; u "/work/src" ]};
     files := {[ live := u "print('now')" ]} |}.

Definition world : World := {| fs := disk; invocations := [] |}.

(** A well-behaved command.  A restore writes [src/main.py] below the
    destination and nothing else; it exits with 0 all the same when
    another file is asked for. *)
Definition run (args : list str) (s : FS) : result (Z * str * str) * FS :=
  match args with
  | [] => (Ok (0%Z, u "Created backup" ++ nl, []), s)
  | [a] =>
      if decide (a = u "--list")
      then (Ok (0%Z,
                u "[1] datezip_20240216_143000_FULL.zip" ++ nl
                ++ u "[2]  datezip_20240217_090000_INC.zip" ++ nl
                ++ u "2 archives" ++ nl, []), s)
      else if decide (a = u "--history")
      then (Ok (0%Z,
                u "20240216_143000 + src/main.py" ++ nl
                ++ u "20240217_090000   .  src/main.py" ++ nl
                ++ u "-- 2 changes" ++ nl, []), s)
      else (Ok (0%Z, u "Created backup" ++ nl, []), s)
  | [_; _; _; file; _; dest; _; _] =>
      if decide (file = u "src/main.py")
      then (Ok (0%Z, u "Restored 1 file", []),
            {| dirs := {[ dest ++ u "/src" ]} ∪ dirs s;
               files := <[ dest ++ u "/src/main.py" := u "print('then')" ]> (files s) |})
      else (Ok (0%Z, u "Restored 0 files", []), s)
  | _ => (Ok (0%Z, u "Done", []), s)
  end.

(** The first name [mkdtemp] draws is taken, the second is free. *)
Definition env : Env :=
  {| datezip := run;
     tmp_candidates := fun _ => [u "/work"; tmp];
     unicode_decimal := is_digit09;
     decode_text := Some;
     int_max_str_digits := Some 4300 |}.

(** A command that finds no archive store and says so. *)
Definition broken : Env :=
  {| datezip := fun _ s =>
       (Ok (1%Z, [], u "datezip: no backup directory" ++ nl), s);
     tmp_candidates := fun _ => [tmp];
     unicode_decimal := is_digit09;
     decode_text := Some;
     int_max_str_digits := Some 4300 |}.

(** A command that cannot be started. *)
Definition missing : Env :=
  {| datezip := fun _ s => (Raise FileNotFoundError, s);
     tmp_candidates := fun _ => [tmp];
     unicode_decimal := is_digit09;
     decode_text := Some;
     int_max_str_digits := Some 4300 |}.

(** A command that restores the whole tree, whatever file is asked for. *)
Definition whole : Env :=
  {| datezip := fun args s =>
       match args with
       | [_; _; _; _; _; dest; _; _] =>
           (Ok (0%Z, u "Restored 1 file", []),
            {| dirs := {[ dest ++ u "/src" ]} ∪ dirs s;
               files := <[ dest ++ u "/src/main.py" := u "print('then')" ]> (files s) |})
       | _ => (Ok (0%Z, [], []), s)
       end;
     tmp_candidates := fun _ => [tmp];
     unicode_decimal := is_digit09;
     decode_text := Some;
     int_max_str_digits := Some 4300 |}.

(** A command that leaves nothing on the disk. *)
Definition wiper : Env :=
  {| datezip := fun _ _ => (Ok (0%Z, [], []), {| dirs := ∅; files := ∅ |});
     tmp_candidates := fun _ => [tmp];
     unicode_decimal := is_digit09;
     decode_text := Some;
     int_max_str_digits := Some 4300 |}.

(** A command that prints a warning and a message around the failure. *)
Definition noisy : Env :=
  {| datezip := fun _ s =>
       (Ok (2%Z, nl ++ u "  nothing restored " ++ nl, u " " ++ nl), s);
     tmp_candidates := fun _ => [tmp];
     unicode_decimal := is_digit09;
     decode_text := Some;
     int_max_str_digits := Some 4300 |}.

End Demo.

(* ===================================================================== *)
(** * Part II -- properties                                               *)
(* ===================================================================== *)

(** ** Python strings *)

Module PyStrFacts.

Lemma lstrip_head (s : str) c t : lstrip s = c :: t -> is_space c = false.
Proof.
  induction s as [|a s IH]; simpl; [done|].
  destruct (is_space a) eqn:Ha; [done|].
  intros [= <- _]. done.
Qed.

Lemma rstrip_last (s : str) c : last (rstrip s) = Some c -> is_space c = false.
Proof.
  unfold rstrip. rewrite last_reverse.
  destruct (lstrip (reverse s)) as [|a t] eqn:E; simpl; [done|].
  intros [= <-]. by eapply lstrip_head.
Qed.

(** A stripped string does not end in white space. *)
Lemma strip_last (s : str) c : last (strip s) = Some c -> is_space c = false.
Proof. apply rstrip_last. Qed.

Lemma strip_not_snoc_space (s : str) w c :
  strip s = w ++ [c] -> is_space c = false.
Proof. intros E. apply (strip_last s). rewrite E. apply last_snoc. Qed.

End PyStrFacts.

(** ** The matcher finds only what the pattern describes *)

Module SreFacts.

Lemma count_run_spec p hi (l : str) : forall a,
  exists m, count_run p hi a l = a + m /\ m <= length l
    /\ Forall (fun c => p c = true) (take m l)
    /\ (forall h, hi = Some h -> a <= h -> a + m <= h).
Proof.
  induction l as [|c t IH]; intros a; simpl.
  - exists 0. repeat split; [lia|lia|constructor|intros; lia].
  - destruct (p c) eqn:Hp; simpl.
    + destruct (under_cap hi a) eqn:Hc.
      * destruct (IH (S a)) as (m & E & Hl & Hf & Hh).
        exists (S m). rewrite E. repeat split; [lia|lia|by constructor|].
        intros h -> Hle. simpl in Hc. apply Nat.ltb_lt in Hc.
        specialize (Hh h eq_refl). lia.
      * exists 0. repeat split; [lia|lia|constructor|intros; lia].
    + exists 0. repeat split; [lia|lia|constructor|intros; lia].
Qed.

Lemma try_down_sound {R} (k : nat -> option R) lo extra r :
  try_down k lo extra = Some r ->
  exists i, lo <= i <= lo + extra /\ k i = Some r.
Proof.
  induction extra as [|e IH]; simpl.
  - destruct (k (lo + 0)) eqn:E; [|done]. intros [= <-].
    exists (lo + 0). split; [lia|done].
  - destruct (k (lo + S e)) eqn:E.
    + intros [= <-]. exists (lo + S e). split; [lia|done].
    + intros Hd. destruct (IH Hd) as (i & Hi & Hk). exists i. split; [lia|done].
Qed.

(** The longest repetition the continuation accepts is the one taken. *)
Lemma try_down_first {R} (k : nat -> option R) lo extra r :
  k (lo + extra) = Some r -> try_down k lo extra = Some r.
Proof. intros E. destruct extra; simpl; by rewrite E. Qed.

Definition after (st : mstate) (w post : str) (g : gmap nat str) : mstate :=
  {| pos := pos st + length w; rest := post; caps := g |}.

Lemma after_nil st (post : str) :
  rest st = post -> after st [] post (caps st) = st.
Proof. intros <-. destruct st. unfold after. simpl. f_equal. lia. Qed.

Lemma advance_after st (w post : str) :
  rest st = w ++ post -> advance (length w) st = after st w post (caps st).
Proof.
  intros E. unfold advance, after. f_equal.
  rewrite E. by rewrite drop_app_length.
Qed.

(** Soundness: a successful run of the matcher consumed a word that the
    pattern matches, and handed the continuation the state after it. *)
Lemma sre_match_sound r : forall st k res,
  sre_match r st k = Some res ->
  exists w post g',
    rest st = w ++ post
    /\ matches r (pos st) w post (caps st) g'
    /\ k (after st w post g') = Some res.
Proof.
  induction r as [| | |c|p|r1 IH1 r2 IH2|r1 IH1 r2 IH2|lo hi p|i r IH];
    intros st k res; simpl.
  - intros Hk. exists [], (rest st), (caps st). by rewrite after_nil.
  - destruct (decide (pos st = 0)); [|done]. intros Hk.
    exists [], (rest st), (caps st). by rewrite after_nil.
  - destruct (rest st) as [|c [|c' t]] eqn:E; [| |done].
    + intros Hk. exists [], [], (caps st).
      rewrite (after_nil st [] E). naive_solver.
    + destruct (c =? 10)%N eqn:Hc; [|done]. apply N.eqb_eq in Hc as ->.
      intros Hk. exists [], [10%N], (caps st).
      rewrite (after_nil st [10%N] E). naive_solver.
  - destruct (rest st) as [|c' t] eqn:E; [done|].
    destruct (c' =? c)%N eqn:Hc; [|done]. apply N.eqb_eq in Hc as ->.
    intros Hk. exists [c], t, (caps st).
    rewrite <- (advance_after st [c] t E). done.
  - destruct (rest st) as [|c' t] eqn:E; [done|].
    destruct (p c') eqn:Hc; [|done].
    intros Hk. exists [c'], t, (caps st).
    rewrite <- (advance_after st [c'] t E). naive_solver.
  - intros H1. apply IH1 in H1 as (w1 & post1 & g1 & E1 & M1 & H2).
    apply IH2 in H2 as (w2 & post2 & g2 & E2 & M2 & Hk).
    simpl in E2, M2, Hk. subst post1.
    exists (w1 ++ w2), post2, g2. split; [by rewrite <- app_assoc|].
    split; [by exists w1, w2, g1|].
    unfold after in *. simpl in Hk. rewrite length_app.
    by rewrite Nat.add_assoc.
  - destruct (sre_match r1 st k) eqn:E1.
    + intros [= <-]. apply IH1 in E1 as (w & post & g' & ? & ? & ?).
      exists w, post, g'. auto.
    + intros E2. apply IH2 in E2 as (w & post & g' & ? & ? & ?).
      exists w, post, g'. auto.
  - destruct (count_run_spec p hi (rest st) 0) as (m & -> & Hl & Hf & Hh).
    simpl. destruct (m <? lo) eqn:Hlo; [done|]. apply Nat.ltb_ge in Hlo.
    intros Hd. apply try_down_sound in Hd as (i & Hi & Hk).
    assert (Hil : i <= length (rest st)) by lia.
    exists (take i (rest st)), (drop i (rest st)), (caps st).
    split; [by rewrite take_drop|].
    assert (Hlen : length (take i (rest st)) = i) by (rewrite length_take; lia).
    split.
    + rewrite Hlen. repeat split; [lia| |].
      * intros h Eh. specialize (Hh h Eh). lia.
      * replace i with (i `min` m) by lia. rewrite <- take_take.
        by apply Forall_take.
    + rewrite <- advance_after by (by rewrite take_drop). by rewrite Hlen.
  - intros Hr. apply IH in Hr as (w & post & g' & E & Mr & Hk).
    exists w, post, (<[i := w]> g'). split; [done|]. split; [by exists g'|].
    unfold after in Hk. simpl in Hk.
    replace (pos st + length w - pos st) with (length w) in Hk by lia.
    rewrite E in Hk. rewrite take_app_length in Hk. done.
Qed.

(** [pattern.match(s)] returning a match object [m]: [s] starts with a
    word the pattern matches at offset 0, and [m] holds its groups. *)
Lemma re_match_sound pat (s : str) m :
  re_match pat s = Some m ->
  exists w post, s = w ++ post /\ matches pat 0 w post ∅ (caps m).
Proof.
  unfold re_match. intros Hm.
  apply sre_match_sound in Hm as (w & post & g' & E & Mp & [= <-]).
  exists w, post. done.
Qed.

(** A literal word matches itself only. *)
Lemma matches_Str (lit : str) : forall at_ w post g g',
  matches (Str lit) at_ w post g g' -> w = lit /\ g' = g.
Proof.
  induction lit as [|c t IH]; intros at_ w post g g'; simpl.
  - naive_solver.
  - intros (w1 & w2 & gm & -> & [-> ->] & M2).
    apply IH in M2 as [-> ->]. done.
Qed.

End SreFacts.

(** Inversion of [matches] on a pattern written out constructor by
    constructor. *)
Ltac inv_matches :=
  repeat match goal with
  | H : matches (Cat _ _) _ _ _ _ _ |- _ =>
      let w1 := fresh "w" in
      let w2 := fresh "w" in
      let g := fresh "g" in
      destruct H as (w1 & w2 & g & ? & ? & ?)
  | H : matches (Str _) _ _ _ _ _ |- _ =>
      apply SreFacts.matches_Str in H as [? ?]
  | H : matches (Lit _) _ _ _ _ _ |- _ => destruct H as [? ?]
  | H : matches Bol _ _ _ _ _ |- _ => destruct H as (_ & ? & ?)
  | H : matches Eol _ _ _ _ _ |- _ => destruct H as (? & ? & ?)
  | H : matches (Cls _) _ _ _ _ _ |- _ => destruct H as [(? & ? & ?) ?]
  | H : matches (Repeat _ _ _) _ _ _ _ _ |- _ => destruct H as (? & ? & ? & ?)
  | H : matches (Group _ _) _ _ _ _ _ |- _ => destruct H as (? & ? & ?)
  | H : matches (Alt _ _) _ _ _ _ _ |- _ => destruct H as [H|H]
  end.

(** ** What the two patterns accept *)

Section Patterns.
Context `{Env}.
Import SreFacts PyStrFacts.

Lemma forallb_all_of p (w : str) : all_of p w -> forallb p w = true.
Proof.
  unfold all_of. induction 1 as [|c t Hc _ IH]; simpl; [done|].
  by rewrite Hc, IH.
Qed.

Lemma is_timestamp_intro (d t : str) :
  length d = 8 -> length t = 6 ->
  all_of is_digit09 d -> all_of is_digit09 t ->
  is_timestamp ((d ++ [95%N]) ++ t) = true.
Proof.
  intros Hd Ht Fd Ft. unfold is_timestamp.
  rewrite <- app_assoc.
  rewrite !andb_true_iff. repeat split.
  - apply bool_decide_eq_true. rewrite !length_app. simpl. lia.
  - rewrite take_app_length' by done. by apply forallb_all_of.
  - apply bool_decide_eq_true. rewrite lookup_app_r by lia.
    by replace (8 - length d) with 0 by lia.
  - replace 9 with (length d + 1) by lia. rewrite <- drop_drop.
    rewrite drop_app_length. simpl. rewrite drop_0. by apply forallb_all_of.
Qed.

Lemma nonempty_of_length (w : str) n : S n <= length w -> w <> [].
Proof. destruct w; simpl; [lia|done]. Qed.

Lemma exact_length (w : str) n :
  n <= length w -> (forall h, Some n = Some h -> length w <= h) -> length w = n.
Proof. intros Hlo Hhi. specialize (Hhi n eq_refl). lia. Qed.

(** A match of the [--list] pattern: the line is an indexed backup line
    and the three groups are the archive name, its timestamp and its
    type. *)
Lemma backup_pattern_sound (line : str) m :
  re_match backup_pattern line = Some m ->
  exists ts ty,
    backup_line line ts ty
    /\ group m 1 = Some (backup_name ts ty)
    /\ group m 2 = Some ts
    /\ group m 3 = Some ty.
Proof.
  intros Hm. apply re_match_sound in Hm as (w & post & E & Mp).
  unfold backup_pattern in Mp. inv_matches.
  all: simplify_eq.
  all: match goal with
       | Hc : caps _ = _, H8 : 8 <= length ?d, H6 : 6 <= length ?t |- _ =>
           exists ((d ++ [95%N]) ++ t)
       end.
  1: exists (u "FULL"). 2: exists (u "INC").
  all: unfold group; match goal with Hc : caps _ = _ |- _ => rewrite Hc end.
  all: (split; [|by rewrite ?lookup_insert_eq, ?lookup_insert_ne by done;
                   unfold backup_name; rewrite <- ?app_assoc]).
  all: match goal with
       | Hi : 1 <= length ?idx, Fi : Forall _ ?idx,
         Hs : 1 <= length ?ws, Fs : Forall (fun c => is_space c = true) ?ws |- _ =>
           exists idx, ws, post
       end.
  all: repeat split;
    [ unfold backup_name; by rewrite <- ?app_assoc
    | by eapply nonempty_of_length | done
    | by eapply nonempty_of_length | done
    | apply is_timestamp_intro; [by apply exact_length..|done|done]
    | auto ].
Qed.

(** A match of the [--history] pattern on a stripped line: timestamp,
    marker and file are the three groups, and the file runs to the end
    of the line. *)
Lemma history_pattern_sound (l : str) m :
  re_match history_pattern (strip l) = Some m ->
  exists ts marker file,
    history_line (strip l) ts marker file
    /\ group m 1 = Some ts
    /\ group m 2 = Some [marker]
    /\ group m 3 = Some file.
Proof.
  intros Hm. apply re_match_sound in Hm as (w & post & E & Mp).
  unfold history_pattern in Mp. inv_matches. simplify_eq.
  match goal with
  | Hp : post = [] \/ post = [10%N] |- _ => destruct Hp as [->| ->]
  end.
  2: { exfalso. rewrite app_nil_r in E.
       apply strip_not_snoc_space in E. by vm_compute in E. }
  rewrite !app_nil_r in E. simpl in E.
  match type of E with
  | _ = ((((?ts ++ ?a) ++ [?x]) ++ ?b) ++ ?f) =>
      exists ts, x, f; split; [exists a, b|]
  end.
  - repeat split;
      [ by rewrite E, <- !app_assoc
      | apply is_timestamp_intro; [by apply exact_length..|done|done]
      | by eapply nonempty_of_length | done
      | match goal with
        | Hx : _ || _ = true |- _ =>
            apply orb_true_iff in Hx as [Hx|Hx]; apply N.eqb_eq in Hx; auto
        end
      | by eapply nonempty_of_length | done
      | by eapply nonempty_of_length ].
  - unfold group. match goal with Hc : caps _ = _ |- _ => rewrite Hc end.
    by rewrite ?lookup_insert_eq, ?lookup_insert_ne by done.
Qed.

End Patterns.

(** ** Scratch directories *)

Module OSFacts.

(** [mkdtemp] returns a name that did not exist, and creates it. *)
Lemma mkdtemp_Ok cands s d s' :
  mkdtemp cands s = (Ok d, s') ->
  path_exists s d = false /\ s' = mkdir d s /\ is_dir s' d = true.
Proof.
  unfold mkdtemp.
  destruct (List.find _ cands) as [d'|] eqn:Ef; [|done].
  intros [= <- <-]. apply List.find_some in Ef as [_ Hn].
  apply negb_true_iff in Hn. repeat split; [done|].
  unfold is_dir, mkdir. simpl. apply bool_decide_eq_true. set_solver.
Qed.

Lemma mkdtemp_Raise cands s e s' :
  mkdtemp cands s = (Raise e, s') -> s' = s.
Proof.
  unfold mkdtemp. destruct (List.find _ cands); [done|]. by intros [= _ <-].
Qed.

(** However [rmtree d] ends, [d] is no directory afterwards. *)
Lemma rmtree_not_dir d s : is_dir (rmtree d s).2 d = false.
Proof.
  unfold rmtree. destruct (is_dir s d) eqn:Ed; simpl.
  - unfold is_dir, remove_tree. simpl. apply bool_decide_eq_false.
    rewrite elem_of_filter. intuition congruence.
  - by destruct (is_file s d).
Qed.

(** When [rmtree d] succeeds nothing is left at or below [d]. *)
Lemma rmtree_clears d s p :
  is_dir s d = true -> p = d \/ below d p ->
  path_exists (rmtree d s).2 p = false.
Proof.
  intros Ed Hp. unfold rmtree. rewrite Ed. simpl.
  unfold path_exists, is_dir, is_file, remove_tree. simpl.
  apply orb_false_iff. split; apply bool_decide_eq_false.
  - rewrite elem_of_filter. intuition congruence.
  - intros [c Hc]. apply map_lookup_filter_Some in Hc as [_ Hc].
    simpl in Hc. intuition congruence.
Qed.

(** [rmtree d] leaves alone whatever is neither [d] nor below it. *)
Lemma rmtree_frame d s p :
  p <> d -> ~ below d p ->
  is_dir (rmtree d s).2 p = is_dir s p
  /\ files (rmtree d s).2 !! p = files s !! p.
Proof.
  intros Hne Hnb. unfold rmtree.
  destruct (is_dir s d); [|by destruct (is_file s d)].
  simpl. unfold is_dir, remove_tree. simpl. split.
  - apply bool_decide_ext. rewrite elem_of_filter. intuition congruence.
  - destruct (files s !! p) as [c|] eqn:Ef.
    + apply map_lookup_filter_Some. simpl. intuition congruence.
    + apply map_lookup_filter_None. auto.
Qed.

(** [os.path.join] below a directory name, for a relative second part. *)
Lemma path_join_relative (d b : str) :
  starts_with_sep b = false -> d <> [] -> ends_with_sep d = false ->
  path_join d b = d ++ [sep] ++ b.
Proof.
  intros Hb Hd Hs. unfold path_join. rewrite Hb, Hs. by destruct d.
Qed.

(** An absolute second part is the result, whatever the directory. *)
Lemma path_join_absolute (d b : str) :
  starts_with_sep b = true -> path_join d b = b.
Proof. intros Hb. unfold path_join. by rewrite Hb. Qed.

End OSFacts.

(** ** The tools *)

Section Tools.
Context `{Env}.

(** Unfold a tool down to the call of the external command. *)
Ltac run_tool :=
  unfold create_backup, list_backups, get_history, restore_state,
    mbind, M_bind, bind, mret, M_ret, ret, raise, run_datezip;
  simpl.

Lemma run_datezip_invocations args w :
  invocations (run_datezip args w).2 = invocations w ++ [args].
Proof.
  unfold run_datezip. destruct (datezip args (fs w)) as [[[[c o] e]|e] s]; done.
Qed.

Lemma or_suffix (a b : str) : a `suffix_of` or_ a b.
Proof.
  unfold or_. destruct a; simpl; [|done]. apply suffix_nil.
Qed.

(** C8. create_backup: mode "full" runs the command with [--full], mode
    "inc" with [--inc], mode "auto" with no argument at all.  When the
    command exits, the answer is the success message exactly when the exit
    code is zero; otherwise it is the failure message, which ends with
    [stderr or stdout] and so carries the error output. *)
Theorem create_backup_modes_and_result mode w code out err s :
  datezip (create_backup_args mode) (fs w) = (Ok (code, out, err), s) ->
  create_backup_args (u "full") = [u "--full"]
  /\ create_backup_args (u "inc") = [u "--inc"]
  /\ create_backup_args (u "auto") = []
  /\ invocations (create_backup mode w).2
     = invocations w ++ [create_backup_args mode]
  /\ (code = 0%Z <->
      (create_backup mode w).1
      = Ok (u "Backup successful:" ++ nl ++ strip out))
  /\ (code <> 0%Z <->
      (create_backup mode w).1
      = Ok (u "Backup failed:" ++ nl ++ or_ (strip err) (strip out)))
  /\ strip err `suffix_of`
       (u "Backup failed:" ++ nl ++ or_ (strip err) (strip out)).
Proof.
  intros Hd. split; [done|]. split; [done|]. split; [done|].
  split; [|split; [|split]].
  - run_tool. rewrite Hd. by case_decide.
  - run_tool. rewrite Hd. by case_decide; simpl; split.
  - run_tool. rewrite Hd. by case_decide; simpl; split.
  - apply suffix_app_r, suffix_app_r, or_suffix.
Qed.

(** C9. Any mode other than "full" and "inc" is treated as "auto": the
    command is run, once, with no argument at all, and the call is the
    very same computation as for "auto"; its answer is made from the
    outcome of the command and from nothing else, so nothing is reported
    about the unknown mode. *)
Theorem create_backup_unknown_mode_is_auto mode w :
  mode <> u "full" -> mode <> u "inc" ->
  create_backup_args mode = []
  /\ create_backup mode w = create_backup (u "auto") w
  /\ invocations (create_backup mode w).2 = invocations w ++ [[]]
  /\ fs (create_backup mode w).2 = (datezip [] (fs w)).2
  /\ (create_backup mode w).1
     = match (datezip [] (fs w)).1 with
       | Ok (code, out, err) =>
           if decide (code <> 0%Z)
           then Ok (u "Backup failed:" ++ nl ++ or_ (strip err) (strip out))
           else Ok (u "Backup successful:" ++ nl ++ strip out)
       | Raise e => Raise e
       end.
Proof.
  intros Hf Hi.
  assert (E : create_backup_args mode = []).
  { unfold create_backup_args. by rewrite !decide_False. }
  split; [done|]. split; [unfold create_backup; by rewrite E|].
  unfold create_backup. rewrite E. clear E.
  unfold mbind, M_bind, bind, mret, M_ret, ret, run_datezip.
  destruct (datezip [] (fs w)) as [[[[c o] e]|e] s]; simpl; [|done].
  by destruct (decide (c <> 0%Z)).
Qed.

(** C10. restore_state hands [restore_type] to the command as the value
    of [--restore-type], whatever string it is: the command is always
    run, with that vector, and the outcome of the call is the outcome of
    the command and nothing else. *)
Theorem restore_state_forwards_restore_type timestamp files restore_type w :
  restore_state_args timestamp files restore_type !! 2 = Some (u "--restore-type")
  /\ restore_state_args timestamp files restore_type !! 3 = Some restore_type
  /\ invocations (restore_state timestamp files restore_type w).2
     = invocations w ++ [restore_state_args timestamp files restore_type]
  /\ (restore_state timestamp files restore_type w).1
     = match (datezip (restore_state_args timestamp files restore_type) (fs w)).1 with
       | Ok (code, out, err) =>
           if decide (code <> 0%Z)
           then Ok (u "Restore failed:" ++ nl ++ or_ (strip err) (strip out))
           else Ok (u "Restore successful:" ++ nl ++ strip out)
       | Raise e => Raise e
       end.
Proof.
  split; [|split; [|split]].
  - unfold restore_state_args. by destruct (truthy_opt files).
  - unfold restore_state_args. by destruct (truthy_opt files).
  - run_tool.
    destruct (datezip _ (fs w)) as [[[[c o] e]|e] s]; simpl; [|done].
    by case_decide.
  - run_tool.
    destruct (datezip _ (fs w)) as [[[[c o] e]|e] s]; simpl; [|done].
    by case_decide.
Qed.

(** C2 (as the code has it). restore_state takes no destination.  The
    command is run with the timestamp, the restore type and, for a
    non-empty [files], one [--files] value; there is no slot for a
    destination, which is therefore the command's own default. *)
Theorem restore_state_passes_no_destination timestamp files restore_type w :
  invocations (restore_state timestamp files restore_type w).2
  = invocations w ++
      [[u "--restore-time"; timestamp; u "--restore-type"; restore_type]
       ++ match files with
          | Some (f :: rest) => [u "--files"; join (u ",") (f :: rest)]
          | _ => []
          end].
Proof.
  assert (E : restore_state_args timestamp files restore_type
              = [u "--restore-time"; timestamp; u "--restore-type"; restore_type]
                ++ match files with
                   | Some (f :: rest) => [u "--files"; join (u ",") (f :: rest)]
                   | _ => []
                   end).
  { unfold restore_state_args. by destruct files as [[|f rest]|]. }
  unfold restore_state. rewrite <- E. clear E.
  generalize (restore_state_args timestamp files restore_type). intros args.
  run_tool.
  destruct (datezip _ (fs w)) as [[[[c o] e]|e] s]; simpl; [|done].
  by case_decide.
Qed.

(** C3 (as the code has it). get_history passes [--files] with the paths
    joined by commas only for a non-empty list, and [--from] / [--to]
    only for a non-empty string; [None], the empty list and the empty
    string all leave the flag out. *)
Theorem get_history_request files from_ts to_ts w :
  invocations (get_history files from_ts to_ts w).2
  = invocations w ++
      [[u "--history"]
       ++ match files with
          | Some (f :: rest) => [u "--files"; join (u ",") (f :: rest)]
          | _ => []
          end
       ++ match from_ts with
          | Some (c :: s) => [u "--from"; c :: s]
          | _ => []
          end
       ++ match to_ts with
          | Some (c :: s) => [u "--to"; c :: s]
          | _ => []
          end].
Proof.
  match goal with
  | |- _ = _ ++ [?v] =>
      assert (E : get_history_args files from_ts to_ts = v)
  end.
  { unfold get_history_args.
    by destruct files as [[|f rest]|], from_ts as [[|c s]|], to_ts as [[|c' s']|]. }
  unfold get_history. rewrite <- E. clear E.
  generalize (get_history_args files from_ts to_ts). intros args.
  run_tool.
  destruct (datezip _ (fs w)) as [[[[c o] e]|e] s]; simpl; [|done].
  by case_decide.
Qed.

(** The loops over [stdout.splitlines()] only ever append what a matching
    line yields. *)
Lemma list_backups_loop lines : forall acc b,
  b ∈ foldl list_backups_step acc lines ->
  b ∈ acc \/ exists line m,
    line ∈ lines
    /\ re_match backup_pattern (strip line) = Some m
    /\ b = {| filename := group m 1; timestamp := group m 2; type_ := group m 3 |}.
Proof.
  induction lines as [|l lines IH]; intros acc b; simpl; [auto|].
  intros Hb. apply IH in Hb as [Hb|(line & m & Hl & Hm & Eb)].
  - unfold list_backups_step in Hb.
    destruct (re_match backup_pattern (strip l)) as [m|] eqn:Em; [|auto].
    apply elem_of_app in Hb as [Hb|Hb]; [auto|].
    apply list_elem_of_singleton in Hb. right. exists l, m.
    split; [apply list_elem_of_here|done].
  - right. exists line, m. split; [by apply list_elem_of_further|done].
Qed.

Lemma get_history_loop lines : forall acc e,
  e ∈ foldl get_history_step acc lines ->
  e ∈ acc \/ exists line m,
    line ∈ lines
    /\ re_match history_pattern (strip line) = Some m
    /\ e = {| h_timestamp := group m 1;
              h_status := if decide (group m 2 = Some (u "+"))
                          then u "new" else u "modified";
              h_file := group m 3 |}.
Proof.
  induction lines as [|l lines IH]; intros acc e; simpl; [auto|].
  intros He. apply IH in He as [He|(line & m & Hl & Hm & Ee)].
  - unfold get_history_step in He.
    destruct (re_match history_pattern (strip l)) as [m|] eqn:Em; [|auto].
    apply elem_of_app in He as [He|He]; [auto|].
    apply list_elem_of_singleton in He. right. exists l, m.
    split; [apply list_elem_of_here|done].
  - right. exists line, m. split; [by apply list_elem_of_further|done].
Qed.

Lemma list_backups_result w code out err s :
  datezip [u "--list"] (fs w) = (Ok (code, out, err), s) ->
  (list_backups w).1
  = if decide (code <> 0%Z)
    then Raise (RuntimeError (u "Failed to list backups: " ++ strip err))
    else Ok (foldl list_backups_step [] (splitlines (strip out))).
Proof.
  intros Hd. unfold list_backups, mbind, M_bind, bind, run_datezip.
  rewrite Hd. by case_decide.
Qed.

Lemma get_history_result files from_ts to_ts w code out err s :
  datezip (get_history_args files from_ts to_ts) (fs w)
    = (Ok (code, out, err), s) ->
  (get_history files from_ts to_ts w).1
  = if decide (code <> 0%Z)
    then Raise (RuntimeError (u "Failed to get history: " ++ strip err))
    else Ok (foldl get_history_step [] (splitlines (strip out))).
Proof.
  intros Hd. unfold get_history, mbind, M_bind, bind, run_datezip.
  rewrite Hd. by case_decide.
Qed.

(** C5. When the command exits, list_backups and get_history raise
    exactly when the exit code is not zero, and the error carries the
    command's standard error.  With exit code zero they return a list,
    which is empty for empty output: an empty answer is a success. *)
Theorem listing_fails_iff_nonzero_exit w files from_ts to_ts
    code1 out1 err1 s1 code2 out2 err2 s2 :
  datezip [u "--list"] (fs w) = (Ok (code1, out1, err1), s1) ->
  datezip (get_history_args files from_ts to_ts) (fs w)
    = (Ok (code2, out2, err2), s2) ->
  (code1 <> 0%Z <->
     (list_backups w).1
     = Raise (RuntimeError (u "Failed to list backups: " ++ strip err1)))
  /\ (code1 = 0%Z <-> exists bs, (list_backups w).1 = Ok bs)
  /\ (code1 = 0%Z -> strip out1 = [] -> (list_backups w).1 = Ok [])
  /\ (code2 <> 0%Z <->
     (get_history files from_ts to_ts w).1
     = Raise (RuntimeError (u "Failed to get history: " ++ strip err2)))
  /\ (code2 = 0%Z <-> exists es, (get_history files from_ts to_ts w).1 = Ok es)
  /\ (code2 = 0%Z -> strip out2 = [] ->
      (get_history files from_ts to_ts w).1 = Ok []).
Proof.
  intros H1 H2.
  rewrite (list_backups_result _ _ _ _ _ H1).
  rewrite (get_history_result _ _ _ _ _ _ _ _ H2).
  repeat split; repeat case_decide; try done; try lia; eauto.
  - intros [? ?]. done.
  - intros _ ->. done.
  - intros [? ?]. done.
  - intros _ ->. done.
Qed.

(** C6. Every element returned by list_backups comes from one line of
    the [--list] output that has the indexed form, and its filename,
    timestamp and type are the archive name, the timestamp and the type
    read off that line; a line that has not that form adds nothing. *)
Theorem list_backups_elements w bs w' :
  list_backups w = (Ok bs, w') ->
  (exists out err s,
     datezip [u "--list"] (fs w) = (Ok (0%Z, out, err), s)
     /\ forall b, b ∈ bs ->
        exists line ts ty,
          line ∈ splitlines (strip out)
          /\ backup_line (strip line) ts ty
          /\ filename b = Some (backup_name ts ty)
          /\ timestamp b = Some ts
          /\ type_ b = Some ty)
  /\ (forall acc line,
       (forall ts ty, ~ backup_line (strip line) ts ty) ->
       list_backups_step acc line = acc).
Proof.
  intros Hl. split.
  - revert Hl. run_tool.
    destruct (datezip _ (fs w)) as [[[[code out] err]|e] s]; simpl; [|done].
    case_decide; simpl; [done|]. intros [= <- <-].
    assert (code = 0%Z) as -> by lia.
    exists out, err, s. split; [done|]. intros b Hb.
    apply list_backups_loop in Hb as [Hb|(line & m & Hin & Hm & ->)].
    { by apply elem_of_nil in Hb. }
    apply backup_pattern_sound in Hm as (ts & ty & Hform & G1 & G2 & G3).
    exists line, ts, ty. by simpl.
  - intros acc line Hno. unfold list_backups_step.
    destruct (re_match backup_pattern (strip line)) as [m|] eqn:Em; [|done].
    apply backup_pattern_sound in Em as (ts & ty & Hform & _).
    by destruct (Hno ts ty).
Qed.

(** C7. Every entry returned by get_history comes from one line of the
    [--history] output of the form timestamp, marker, file.  Its status
    is "new" or "modified": "new" exactly for the marker [+], "modified"
    exactly for the marker [.]; its timestamp is the line's and its file
    is the rest of the line. *)
Theorem get_history_entries files from_ts to_ts w es w' :
  get_history files from_ts to_ts w = (Ok es, w') ->
  exists out err s,
    datezip (get_history_args files from_ts to_ts) (fs w)
      = (Ok (0%Z, out, err), s)
    /\ forall e, e ∈ es ->
       exists line ts marker file,
         line ∈ splitlines (strip out)
         /\ history_line (strip line) ts marker file
         /\ h_timestamp e = Some ts
         /\ h_file e = Some file
         /\ (h_status e = u "new" \/ h_status e = u "modified")
         /\ (h_status e = u "new" <-> marker = 43%N)
         /\ (h_status e = u "modified" <-> marker = 46%N).
Proof.
  unfold get_history.
  generalize (get_history_args files from_ts to_ts). intros args.
  run_tool.
  destruct (datezip _ (fs w)) as [[[[code out] err]|e] s]; simpl; [|done].
  case_decide; simpl; [done|]. intros [= <- <-].
  assert (code = 0%Z) as -> by lia.
  exists out, err, s. split; [done|]. intros e He.
  apply get_history_loop in He as [He|(line & m & Hin & Hm & ->)].
  { by apply elem_of_nil in He. }
  apply history_pattern_sound in Hm as (ts & marker & file & Hform & G1 & G2 & G3).
  exists line, ts, marker, file. simpl. rewrite G2.
  do 4 (split; [done|]).
  destruct Hform as (ws1 & ws2 & _ & _ & _ & _ & [-> | ->] & _).
  - rewrite decide_True by done. by repeat split; auto.
  - rewrite decide_False by done. by repeat split; auto.
Qed.

(** *** get_historical_content and its scratch directory *)

Import OSFacts.

Ltac run_content :=
  unfold get_historical_content, try_finally, lift_fs,
    mbind, M_bind, bind, mret, M_ret, ret, run_datezip.

(** When [mkdtemp] fails the call fails with it, before anything else
    happens: the command is not run and the file system is as before. *)
Lemma get_historical_content_no_scratch timestamp filename w e s0 :
  mkdtemp (tmp_candidates (fs w)) (fs w) = (Raise e, s0) ->
  get_historical_content timestamp filename w = (Raise e, w).
Proof.
  intros Hmk. pose proof (mkdtemp_Raise _ _ _ _ Hmk) as ->.
  run_content. rewrite Hmk. by destruct w.
Qed.

(** The world a call leaves behind: the command ran once, on the file
    system with the scratch directory in it, and [rmtree] ran last. *)
Lemma get_historical_content_world timestamp filename w d s0 :
  mkdtemp (tmp_candidates (fs w)) (fs w) = (Ok d, s0) ->
  (get_historical_content timestamp filename w).2
  = {| fs := (rmtree d
               (datezip (get_historical_content_args timestamp filename d) s0).2).2;
       invocations :=
         invocations w ++ [get_historical_content_args timestamp filename d] |}.
Proof.
  intros Hmk. run_content. rewrite Hmk. simpl.
  destruct (datezip _ s0) as [[[[code out] err]|e] s1]; simpl.
  - case_decide; simpl.
    + by destruct (rmtree d s1) as [[[]|e2] s2].
    + destruct (path_exists s1 (path_join d filename)); simpl;
        by destruct (rmtree d s1) as [[[]|e2] s2].
  - by destruct (rmtree d s1) as [[[]|e2] s2].
Qed.

(** C1. Whenever get_historical_content gets its scratch directory [d]
    from [mkdtemp]: no such path existed before the call; [mkdtemp] has
    created it, so it is a directory of the file system the restore
    command runs on; the command is run once, with [d] as the value of
    [--dest]; [rmtree d] runs last, whichever way the body ended, and
    afterwards [d] is no directory any more and, [d] having still been a
    directory when [rmtree] ran, nothing exists at or below [d].  The
    call itself changes nothing outside [d]: what exists elsewhere
    afterwards is what the command left there. *)
Theorem get_historical_content_scratch_dir timestamp filename w d s0 :
  mkdtemp (tmp_candidates (fs w)) (fs w) = (Ok d, s0) ->
  path_exists (fs w) d = false
  /\ s0 = mkdir d (fs w) /\ is_dir s0 d = true
  /\ invocations (get_historical_content timestamp filename w).2
     = invocations w ++
         [[u "--restore-time"; timestamp; u "--files"; filename;
           u "--dest"; d; u "--restore-type"; u "e"]]
  /\ fs (get_historical_content timestamp filename w).2
     = (rmtree d
          (datezip (get_historical_content_args timestamp filename d) s0).2).2
  /\ is_dir (fs (get_historical_content timestamp filename w).2) d = false
  /\ (is_dir (datezip (get_historical_content_args timestamp filename d) s0).2 d
      = true ->
      forall p, p = d \/ below d p ->
        path_exists (fs (get_historical_content timestamp filename w).2) p
        = false)
  /\ forall p, p <> d -> ~ below d p ->
       is_dir (fs (get_historical_content timestamp filename w).2) p
       = is_dir (datezip (get_historical_content_args timestamp filename d) s0).2 p
       /\ files (fs (get_historical_content timestamp filename w).2) !! p
          = files (datezip (get_historical_content_args timestamp filename d) s0).2 !! p.
Proof.
  intros Hmk.
  rewrite (get_historical_content_world _ _ _ _ _ Hmk). simpl.
  destruct (mkdtemp_Ok _ _ _ _ Hmk) as (Hfresh & Hs0 & Hdir).
  split; [done|]. split; [done|]. split; [done|]. split; [done|].
  split; [done|]. split; [apply rmtree_not_dir|]. split.
  - intros Hstill p Hp. by apply rmtree_clears.
  - intros p Hne Hnb. by apply rmtree_frame.
Qed.

(** For a relative file name that walks down only, [d/filename] is a
    path inside the scratch directory, and the claim of C4 holds there:
    the command succeeded, the scratch directory is still there, and
    nothing exists at [d/filename]; the answer names the file and the
    timestamp.  (Names with an empty part, [.] or [..] are other
    spellings of paths that may exist; they are not covered here.) *)
Lemma get_historical_content_missing_relative timestamp filename w d s0
    out err s1 :
  mkdtemp (tmp_candidates (fs w)) (fs w) = (Ok d, s0) ->
  datezip (get_historical_content_args timestamp filename d) s0
    = (Ok (0%Z, out, err), s1) ->
  plain_relative filename = true ->
  starts_with_sep filename = false ->
  d <> [] -> ends_with_sep d = false ->
  path_exists s1 (d ++ [sep] ++ filename) = false ->
  is_dir s1 d = true ->
  (get_historical_content timestamp filename w).1
  = Ok (u "Error: File '" ++ filename
        ++ u "' not found in archive at timestamp " ++ timestamp ++ u ".").
Proof.
  intros Hmk Hd _ Hrel Hne Hsep Hmiss Hdir.
  run_content. rewrite Hmk. simpl. rewrite Hd. simpl.
  rewrite path_join_relative by done.
  rewrite Hmiss. simpl. unfold rmtree. by rewrite Hdir.
Qed.

(** An absolute file name makes [os.path.join] drop the scratch
    directory: the file that is looked for, and read, is the one of that
    name on the disk, not one the command restored. *)
Lemma get_historical_content_absolute_name timestamp filename w d s0
    out err s1 bytes text :
  mkdtemp (tmp_candidates (fs w)) (fs w) = (Ok d, s0) ->
  datezip (get_historical_content_args timestamp filename d) s0
    = (Ok (0%Z, out, err), s1) ->
  starts_with_sep filename = true ->
  files s1 !! filename = Some bytes ->
  decode_text bytes = Some text ->
  is_dir s1 d = true ->
  (get_historical_content timestamp filename w).1
  = Ok (universal_newlines text).
Proof.
  intros Hmk Hd Habs Hfile Hdec Hdir.
  run_content. rewrite Hmk. simpl. rewrite Hd. simpl.
  rewrite path_join_absolute by done.
  assert (path_exists s1 filename = true) as ->.
  { unfold path_exists, is_file. rewrite Hfile.
    apply orb_true_iff. right. by apply bool_decide_eq_true. }
  simpl. unfold read_text. rewrite Hfile, Hdec.
  unfold rmtree. by rewrite Hdir.
Qed.

End Tools.

(* ===================================================================== *)
(** * Part III -- the tools at work                                       *)
(* ===================================================================== *)

(** ** Runs that instantiate the theorems *)

(** C1 on [Demo.world]: the scratch directory is the second name drawn;
    it is there when the restore is sent to it; after the call it is
    gone, and so is the copy of [src/main.py] restored into it. *)
Lemma scratch_dir_run :
  path_exists Demo.disk Demo.tmp = false
  /\ is_dir (mkdir Demo.tmp Demo.disk) Demo.tmp = true
  /\ invocations
       (@get_historical_content Demo.env Demo.ts1 (u "src/main.py") Demo.world).2
     = [[u "--restore-time"; Demo.ts1; u "--files"; u "src/main.py";
         u "--dest"; Demo.tmp; u "--restore-type"; u "e"]]
  /\ is_dir
       (fs (@get_historical_content Demo.env Demo.ts1 (u "src/main.py") Demo.world).2)
       Demo.tmp = false
  /\ path_exists
       (fs (@get_historical_content Demo.env Demo.ts1 (u "src/main.py") Demo.world).2)
       (Demo.tmp ++ u "/src/main.py") = false.
Proof.
  destruct (@get_historical_content_scratch_dir Demo.env Demo.ts1
              (u "src/main.py") Demo.world Demo.tmp (mkdir Demo.tmp Demo.disk))
    as (A & _ & B & C & _ & D & E & _).
  - vm_compute. reflexivity.
  - split; [exact A|]. split; [exact B|]. split; [exact C|]. split; [exact D|].
    apply E.
    + vm_compute. reflexivity.
    + right. apply (bool_decide_unpack _). vm_compute. reflexivity.
Defined.

(** C5 where the command fails: both tools raise, with its message. *)
Lemma listing_fails_run :
  (@list_backups Demo.broken Demo.world).1
  = Raise (RuntimeError (u "Failed to list backups: datezip: no backup directory"))
  /\ (@get_history Demo.broken None None None Demo.world).1
     = Raise (RuntimeError (u "Failed to get history: datezip: no backup directory")).
Proof.
  destruct (@listing_fails_iff_nonzero_exit Demo.broken Demo.world None None None
              1%Z [] (u "datezip: no backup directory" ++ nl) Demo.disk
              1%Z [] (u "datezip: no backup directory" ++ nl) Demo.disk)
    as (A & _ & _ & B & _ & _).
  - reflexivity.
  - reflexivity.
  - split.
    + apply (proj1 A). discriminate.
    + apply (proj1 B). discriminate.
Defined.

(** C6 on the two archives of [Demo.env]: the summary line adds nothing. *)
Lemma list_backups_run :
  exists out err s,
    Demo.run [u "--list"] Demo.disk = (Ok (0%Z, out, err), s)
    /\ forall b,
        b ∈ [ {| filename := Some (u "datezip_20240216_143000_FULL.zip");
                 timestamp := Some Demo.ts1;
                 type_ := Some (u "FULL") |};
              {| filename := Some (u "datezip_20240217_090000_INC.zip");
                 timestamp := Some Demo.ts2;
                 type_ := Some (u "INC") |} ] ->
        exists line ts ty,
          line ∈ splitlines (strip out)
          /\ @backup_line Demo.env (strip line) ts ty
          /\ filename b = Some (backup_name ts ty)
          /\ timestamp b = Some ts
          /\ type_ b = Some ty.
Proof.
  refine (proj1 (@list_backups_elements Demo.env Demo.world _
                   {| fs := Demo.disk; invocations := [[u "--list"]] |} _)).
  vm_compute. reflexivity.
Defined.

(** C7 on the two changes of [Demo.env]. *)
Lemma get_history_run :
  exists out err s,
    Demo.run [u "--history"] Demo.disk = (Ok (0%Z, out, err), s)
    /\ forall e,
        e ∈ [ {| h_timestamp := Some Demo.ts1; h_status := u "new";
                 h_file := Some (u "src/main.py") |};
              {| h_timestamp := Some Demo.ts2; h_status := u "modified";
                 h_file := Some (u "src/main.py") |} ] ->
        exists line ts marker file,
          line ∈ splitlines (strip out)
          /\ history_line (strip line) ts marker file
          /\ h_timestamp e = Some ts
          /\ h_file e = Some file
          /\ (h_status e = u "new" \/ h_status e = u "modified")
          /\ (h_status e = u "new" <-> marker = 43%N)
          /\ (h_status e = u "modified" <-> marker = 46%N).
Proof.
  refine (@get_history_entries Demo.env None None None Demo.world _
            {| fs := Demo.disk; invocations := [[u "--history"]] |} _).
  vm_compute. reflexivity.
Defined.

(** C8 for a forced full backup that fails. *)
Lemma create_backup_run :
  invocations (@create_backup Demo.broken (u "full") Demo.world).2 = [[u "--full"]]
  /\ (@create_backup Demo.broken (u "full") Demo.world).1
     = Ok (u "Backup failed:" ++ nl ++ u "datezip: no backup directory").
Proof.
  destruct (@create_backup_modes_and_result Demo.broken (u "full") Demo.world
              1%Z [] (u "datezip: no backup directory" ++ nl) Demo.disk)
    as (_ & _ & _ & A & _ & B & _).
  - reflexivity.
  - split; [exact A|]. apply (proj1 B). discriminate.
Defined.

(** C9 for the mode "FULL": it is not "full", and the command is run
    bare. *)
Lemma create_backup_upper_case_run :
  create_backup_args (u "FULL") = []
  /\ @create_backup Demo.env (u "FULL") Demo.world
     = @create_backup Demo.env (u "auto") Demo.world
  /\ invocations (@create_backup Demo.env (u "FULL") Demo.world).2 = [[]].
Proof.
  destruct (@create_backup_unknown_mode_is_auto Demo.env (u "FULL") Demo.world)
    as (A & B & C & _).
  - vm_compute. discriminate.
  - vm_compute. discriminate.
  - split; [exact A|]. split; [exact B|exact C].
Defined.

(** ** Where the code parts from the specification *)

(** C2, as stated, fails: restore_state("20240216_143000") runs the
    command with the timestamp and the restore type only.  No destination
    is named; the caller cannot name one. *)
Lemma restore_state_names_no_destination :
  invocations (@restore_state Demo.env Demo.ts1 None (u "e") Demo.world).2
  = [[u "--restore-time"; Demo.ts1; u "--restore-type"; u "e"]]
  /\ (u "--dest" ∉ restore_state_args Demo.ts1 None (u "e")).
Proof.
  split; [by vm_compute|].
  apply (bool_decide_unpack _). by vm_compute.
Qed.

(** C3, as stated, fails: get_history(files=[]) runs the command with
    [--history] alone, as if no files had been given; the same holds for
    an empty [from_ts]. *)
Lemma get_history_empty_files_unrestricted :
  invocations (@get_history Demo.env (Some []) None None Demo.world).2
  = [[u "--history"]]
  /\ (u "--files" ∉ get_history_args (Some []) None None)
  /\ get_history_args (Some []) None None = get_history_args None None None
  /\ get_history_args None (Some []) None = get_history_args None None None.
Proof.
  split; [by vm_compute|]. split; [|done].
  apply (bool_decide_unpack _). by vm_compute.
Qed.

(** C4 at an absolute file name.  The archive has no [/work/src/main.py];
    the command exits with 0 and restores nothing, the scratch directory
    stays empty.  The call answers with the text of the live file of that
    name instead of the report that the file is not in the archive. *)
Theorem get_historical_content_reads_live_file :
  Demo.run (get_historical_content_args Demo.ts1 Demo.live Demo.tmp)
    (mkdir Demo.tmp Demo.disk)
  = (Ok (0%Z, u "Restored 0 files", []), mkdir Demo.tmp Demo.disk)
  /\ files (mkdir Demo.tmp Demo.disk) = {[ Demo.live := u "print('now')" ]}
  /\ path_join Demo.tmp Demo.live = Demo.live
  /\ (@get_historical_content Demo.env Demo.ts1 Demo.live Demo.world).1
     = Ok (u "print('now')")
  /\ (@get_historical_content Demo.env Demo.ts1 Demo.live Demo.world).1
     <> Ok (u "Error: File '" ++ Demo.live
            ++ u "' not found in archive at timestamp " ++ Demo.ts1 ++ u ".").
Proof.
  split; [by vm_compute|]. split; [done|]. split; [by vm_compute|].
  assert (E : (@get_historical_content Demo.env Demo.ts1 Demo.live Demo.world).1
              = Ok (u "print('now')")) by (by vm_compute).
  split; [exact E|]. rewrite E. by vm_compute.
Qed.

(** The same call for the name [README], which the archive lacks as
    well, ends as the specification says. *)
Example get_historical_content_reports_missing_file :
  (@get_historical_content Demo.env Demo.ts1 (u "README") Demo.world).1
  = Ok (u "Error: File 'README' not found in archive at timestamp 20240216_143000.").
Proof. by vm_compute. Qed.

(** The four ways out of get_historical_content, each leaving no scratch
    directory behind: content, file not found, command failure, and an
    exception from the command. *)
Example get_historical_content_exit_paths :
  let gone (r : result str * World) := is_dir (fs r.2) Demo.tmp in
  let r1 := @get_historical_content Demo.env Demo.ts1 (u "src/main.py") Demo.world in
  let r2 := @get_historical_content Demo.env Demo.ts1 (u "README") Demo.world in
  let r3 := @get_historical_content Demo.broken Demo.ts1 (u "README") Demo.world in
  let r4 := @get_historical_content Demo.missing Demo.ts1 (u "README") Demo.world in
  r1.1 = Ok (u "print('then')") /\ gone r1 = false
  /\ gone r2 = false
  /\ r3.1 = Ok (u "Error retrieving historical content: datezip: no backup directory")
  /\ gone r3 = false
  /\ r4.1 = Raise FileNotFoundError /\ gone r4 = false.
Proof. by vm_compute. Qed.

(* ===================================================================== *)
(** * Part IV -- further properties of the code                           *)
(* ===================================================================== *)

(** ** [strip] and [splitlines] *)

Module PyStrMore.
Import PyStrFacts.

Lemma lstrip_split (s : str) :
  exists l, s = l ++ lstrip s /\ all_of is_space l.
Proof.
  induction s as [|c s (l & E & Hl)]; simpl.
  - exists []. split; [done|constructor].
  - destruct (is_space c) eqn:Hc.
    + exists (c :: l). split; [by rewrite E at 1|by constructor].
    + exists []. split; [done|constructor].
Qed.

Lemma rstrip_split (s : str) :
  exists r, s = rstrip s ++ r /\ all_of is_space r.
Proof.
  destruct (lstrip_split (reverse s)) as (l & E & Hl).
  exists (reverse l). split.
  - unfold rstrip. rewrite <- reverse_app, <- E. by rewrite reverse_involutive.
  - unfold all_of in *. by apply Forall_reverse.
Qed.

Lemma all_of_app p (a b : str) : all_of p a -> all_of p b -> all_of p (a ++ b).
Proof. unfold all_of. apply Forall_app_2. Qed.

Lemma lstrip_fixed (s : str) :
  (forall c, head s = Some c -> is_space c = false) -> lstrip s = s.
Proof.
  destruct s as [|c s]; simpl; [done|]. intros Hh. by rewrite (Hh c).
Qed.

Lemma rstrip_fixed (s : str) :
  (forall c, last s = Some c -> is_space c = false) -> rstrip s = s.
Proof.
  intros Hl. unfold rstrip. rewrite lstrip_fixed.
  - apply reverse_involutive.
  - intros c Hc. apply Hl. by rewrite <- head_reverse.
Qed.

Lemma rstrip_head (s : str) c :
  (forall c', head s = Some c' -> is_space c' = false) ->
  head (rstrip s) = Some c -> is_space c = false.
Proof.
  intros Hs Hc. destruct (rstrip_split s) as (r & E & _).
  apply Hs. rewrite E. destruct (rstrip s); [done|]. done.
Qed.

Lemma strip_head (s : str) c : head (strip s) = Some c -> is_space c = false.
Proof.
  unfold strip. apply rstrip_head. intros c'.
  destruct (lstrip s) as [|a t] eqn:E; simpl; [done|].
  intros [= <-]. by eapply lstrip_head.
Qed.

(** [strip] takes white space off both ends and nothing else. *)
Lemma strip_trimmed (s : str) : trimmed s (strip s).
Proof.
  split; [|split].
  - destruct (lstrip_split s) as (l & El & Hl).
    destruct (rstrip_split (lstrip s)) as (r & Er & Hr).
    exists l, r. split; [|done]. unfold strip. by rewrite <- Er.
  - apply strip_head.
  - apply strip_last.
Qed.

Lemma strip_idempotent (s : str) : strip (strip s) = strip s.
Proof.
  unfold strip at 1. rewrite lstrip_fixed by apply strip_head.
  apply rstrip_fixed, strip_last.
Qed.

Lemma lstrip_all_space (s : str) : all_of is_space s -> lstrip s = [].
Proof. induction 1 as [|c s Hc _ IH]; simpl; [done|]. by rewrite Hc. Qed.

(** White space alone strips to the empty string, and only it does. *)
Lemma strip_empty_iff (s : str) : strip s = [] <-> all_of is_space s.
Proof.
  split.
  - intros E. destruct (strip_trimmed s) as ((l & r & Es & Hl & Hr) & _).
    rewrite E in Es. rewrite Es. simpl. by apply all_of_app.
  - intros Hs. unfold strip. by rewrite lstrip_all_space.
Qed.

Lemma splitlines_from_cons (cur : str) c (t : str) :
  splitlines_from cur (c :: t)
  = if is_linebreak c then
      reverse cur ::
        match t with
        | c' :: t' =>
            if (c =? 13)%N && (c' =? 10)%N then splitlines_from [] t'
            else splitlines_from [] t
        | [] => splitlines_from [] t
        end
    else splitlines_from (c :: cur) t.
Proof. done. Qed.

Lemma splitlines_from_spec n : forall (s cur : str),
  length s <= n -> no_linebreak cur ->
  concat (splitlines_from cur s)
  = reverse cur ++ filter (fun c => is_linebreak c = false) s
  /\ Forall no_linebreak (splitlines_from cur s).
Proof.
  induction n as [|n IH]; intros s cur Hn Hcur.
  - destruct s; [|simpl in Hn; lia]. simpl.
    assert (Hrev : no_linebreak (reverse cur)).
    { unfold no_linebreak, all_of in *. by apply Forall_reverse. }
    destruct cur as [|a cur]; simpl; [done|].
    rewrite !app_nil_r. split; [done|]. by constructor.
  - destruct s as [|c t].
    { apply (IH [] cur); [simpl; lia|done]. }
    simpl in Hn. rewrite splitlines_from_cons.
    assert (Hrev : no_linebreak (reverse cur)).
    { unfold no_linebreak, all_of in *. by apply Forall_reverse. }
    destruct (is_linebreak c) eqn:Hc.
    + rewrite filter_cons_False by (by rewrite Hc).
      assert (exists v : str,
                length v <= n
                /\ match t with
                   | c' :: t' =>
                       if (c =? 13)%N && (c' =? 10)%N then splitlines_from [] t'
                       else splitlines_from [] t
                   | [] => splitlines_from [] t
                   end = splitlines_from [] v
                /\ filter (fun c => is_linebreak c = false) v
                   = filter (fun c => is_linebreak c = false) t)
        as (v & Hv & -> & <-).
      { destruct t as [|c' t'].
        - exists []. split; [lia|done].
        - destruct ((c =? 13)%N && (c' =? 10)%N) eqn:Hcr.
          + apply andb_true_iff in Hcr as [_ Hc']. apply N.eqb_eq in Hc' as ->.
            exists t'. split; [simpl in Hn; lia|]. split; [done|].
            by rewrite filter_cons_False.
          + exists (c' :: t'). split; [lia|done]. }
      destruct (IH v [] Hv) as [E F]; [constructor|].
      rewrite concat_cons, E. split; [done|]. by constructor.
    + rewrite filter_cons_True by done.
      destruct (IH t (c :: cur) ltac:(lia)) as [E F].
      { constructor; [by rewrite Hc|done]. }
      rewrite E. rewrite reverse_cons, <- app_assoc. done.
Qed.

(** Splitting into lines loses the line boundaries and nothing else, and
    no line holds a line boundary. *)
Lemma splitlines_spec (s : str) :
  concat (splitlines s) = filter (fun c => is_linebreak c = false) s
  /\ Forall no_linebreak (splitlines s).
Proof.
  unfold splitlines.
  destruct (splitlines_from_spec (length s) s []) as [E F]; [done|constructor|].
  by rewrite E.
Qed.

End PyStrMore.

(** ** The matcher finds a match whenever there is one *)

Module SreMore.
Import SreFacts.

Lemma try_down_complete {R} (k : nat -> option R) lo extra i :
  lo <= i <= lo + extra -> is_Some (k i) -> is_Some (try_down k lo extra).
Proof.
  induction extra as [|e IH]; simpl; intros Hi Hk.
  - replace (lo + 0) with i by lia. by destruct (k i).
  - destruct (k (lo + S e)) eqn:E; [done|].
    apply IH; [|done]. destruct (decide (i = lo + S e)) as [->|]; [|lia].
    rewrite E in Hk. by destruct Hk.
Qed.

Lemma count_run_ge p hi (w post : str) : forall a,
  Forall (fun c => p c = true) w ->
  (forall h, hi = Some h -> a + length w <= h) ->
  a + length w <= count_run p hi a (w ++ post).
Proof.
  induction w as [|c w IH]; intros a Hw Hh; simpl.
  - destruct (count_run_spec p hi post a) as (m & E & _).
    destruct post; simpl in *; lia.
  - inversion Hw as [|? ? Hc Hw']; subst. rewrite Hc. simpl.
    assert (under_cap hi a = true) as ->.
    { destruct hi as [h|]; simpl; [|done]. apply Nat.ltb_lt.
      specialize (Hh h eq_refl). simpl in Hh. lia. }
    specialize (IH (S a) Hw'). simpl in Hh.
    assert (S a + length w <= count_run p hi (S a) (w ++ post)); [|lia].
    apply IH. intros h Eh. specialize (Hh h Eh). lia.
Qed.

(** Completeness: if the pattern matches a word at the head of the input
    and the continuation accepts what follows, the matcher succeeds. *)
Lemma sre_match_complete r : forall st k (w post : str) g',
  rest st = w ++ post ->
  matches r (pos st) w post (caps st) g' ->
  is_Some (k (after st w post g')) ->
  is_Some (sre_match r st k).
Proof.
  induction r as [| | |c|p|r1 IH1 r2 IH2|r1 IH1 r2 IH2|lo hi p|i r IH];
    intros st k w post g' E; simpl.
  - intros [-> ->]. by rewrite (after_nil st post E).
  - intros (Hp & -> & ->). rewrite (after_nil st post E).
    by rewrite decide_True.
  - intros (-> & Hpost & ->). rewrite (after_nil st post E).
    simpl in E. rewrite E. by destruct Hpost as [->| ->].
  - intros [-> ->]. pose proof (advance_after st [c] post E) as Ea.
    rewrite E. simpl in *. rewrite N.eqb_refl. by rewrite Ea.
  - intros [(c & -> & Hc) ->]. pose proof (advance_after st [c] post E) as Ea.
    rewrite E. simpl in *. rewrite Hc. by rewrite Ea.
  - intros (w1 & w2 & gm & -> & M1 & M2) Hk.
    rewrite <- app_assoc in E.
    apply (IH1 st _ w1 (w2 ++ post) gm E M1).
    apply (IH2 (after st w1 (w2 ++ post) gm) k w2 post g'); [done|done|].
    unfold after in *. simpl. rewrite length_app in Hk.
    by rewrite Nat.add_assoc in Hk.
  - intros [M|M] Hk.
    + pose proof (IH1 st k w post g' E M Hk) as [m Hm]. by rewrite Hm.
    + destruct (sre_match r1 st k); [done|]. by apply (IH2 st k w post g' E M).
  - intros (Hlo & Hhi & Hw & ->) Hk.
    assert (Hn : length w <= count_run p hi 0 (rest st)).
    { rewrite E. apply (count_run_ge p hi w post 0 Hw). intros h Eh.
      specialize (Hhi h Eh). lia. }
    destruct (count_run p hi 0 (rest st) <? lo) eqn:Hlt.
    { apply Nat.ltb_lt in Hlt. lia. }
    apply (try_down_complete _ lo _ (length w)); [lia|].
    by rewrite (advance_after st w post E).
  - intros (g1 & M & ->) Hk.
    apply (IH st _ w post g1 E M).
    unfold after at 1. simpl.
    replace (pos st + length w - pos st) with (length w) by lia.
    rewrite E, take_app_length. done.
Qed.

(** [pattern.match(s)] succeeds exactly on the inputs that start with a
    word the pattern matches. *)
Lemma re_match_is_Some pat (s : str) :
  is_Some (re_match pat s)
  <-> exists w post g, s = w ++ post /\ matches pat 0 w post ∅ g.
Proof.
  split.
  - intros [m Hm]. apply re_match_sound in Hm as (w & post & E & M). eauto.
  - intros (w & post & g & E & M). unfold re_match.
    by apply (sre_match_complete pat (MState 0 s ∅) Some w post g).
Qed.

(** Building a match, constructor by constructor. *)
Lemma matches_Cat_intro r1 r2 at_ (w1 w2 post : str) g gm g' :
  matches r1 at_ w1 (w2 ++ post) g gm ->
  matches r2 (at_ + length w1) w2 post gm g' ->
  matches (Cat r1 r2) at_ (w1 ++ w2) post g g'.
Proof. intros M1 M2. by exists w1, w2, gm. Qed.

Lemma matches_Group_intro i r at_ (w post : str) g g1 :
  matches r at_ w post g g1 ->
  matches (Group i r) at_ w post g (<[i := w]> g1).
Proof. intros M. by exists g1. Qed.

Lemma matches_Repeat_intro lo hi p at_ (w post : str) g :
  lo <= length w -> (forall h, hi = Some h -> length w <= h) ->
  Forall (fun c => p c = true) w ->
  matches (Repeat lo hi p) at_ w post g g.
Proof. by intros; simpl. Qed.

Lemma matches_Str_intro (lit : str) : forall at_ post g,
  matches (Str lit) at_ lit post g g.
Proof.
  induction lit as [|c t IH]; intros at_ post g; simpl; [done|].
  exists [c], t, g. split; [done|]. split; [done|]. apply IH.
Qed.

Lemma matches_Alt_l r1 r2 at_ (w post : str) g g' :
  matches r1 at_ w post g g' -> matches (Alt r1 r2) at_ w post g g'.
Proof. by left. Qed.

Lemma matches_Alt_r r1 r2 at_ (w post : str) g g' :
  matches r2 at_ w post g g' -> matches (Alt r1 r2) at_ w post g g'.
Proof. by right. Qed.

Lemma matches_Lit_intro c at_ (post : str) g : matches (Lit c) at_ [c] post g g.
Proof. done. Qed.

Lemma matches_Cls_intro (p : N -> bool) c at_ (post : str) g :
  p c = true -> matches (Cls p) at_ [c] post g g.
Proof. intros Hc. split; [by exists c|done]. Qed.

Lemma matches_Bol_intro (post : str) g : matches Bol 0 [] post g g.
Proof. done. Qed.

Lemma matches_Eol_intro at_ g : matches Eol at_ [] [] g g.
Proof. simpl. auto. Qed.

(** *** The match the engine prefers *)

Lemma prefers_Bol (post : str) g : prefers Bol 0 [] post g g.
Proof. intros k res Hk. simpl in *. done. Qed.

Lemma prefers_Eol n g : prefers Eol n [] [] g g.
Proof. intros k res Hk. simpl in *. by rewrite Nat.add_0_r in Hk. Qed.

Lemma prefers_Lit c n (post : str) g : prefers (Lit c) n [c] post g g.
Proof.
  intros k res Hk. simpl in *. rewrite N.eqb_refl.
  unfold advance. simpl. by rewrite drop_0.
Qed.

Lemma prefers_Cls (p : N -> bool) c n (post : str) g :
  p c = true -> prefers (Cls p) n [c] post g g.
Proof.
  intros Hc k res Hk. simpl in *. rewrite Hc.
  unfold advance. simpl. by rewrite drop_0.
Qed.

Lemma prefers_Cat r1 r2 n (w1 w2 post : str) g gm g' :
  prefers r1 n w1 (w2 ++ post) g gm ->
  prefers r2 (n + length w1) w2 post gm g' ->
  prefers (Cat r1 r2) n (w1 ++ w2) post g g'.
Proof.
  intros P1 P2 k res Hk. simpl. rewrite <- app_assoc.
  apply P1. apply P2. rewrite length_app, Nat.add_assoc in Hk. done.
Qed.

Lemma prefers_Group i r n (w post : str) g g1 :
  prefers r n w post g g1 ->
  prefers (Group i r) n w post g (<[i := w]> g1).
Proof.
  intros P k res Hk. simpl. apply P. unfold set_cap. simpl.
  replace (n + length w - n) with (length w) by lia.
  by rewrite take_app_length.
Qed.

Lemma prefers_Alt_l r1 r2 n (w post : str) g g' :
  prefers r1 n w post g g' -> prefers (Alt r1 r2) n w post g g'.
Proof. intros P k res Hk. simpl. by rewrite (P k res Hk). Qed.

Lemma prefers_Alt_r r1 r2 n (w post : str) g g' :
  (forall k, sre_match r1 (MState n (w ++ post) g) k = None) ->
  prefers r2 n w post g g' -> prefers (Alt r1 r2) n w post g g'.
Proof. intros Hno P k res Hk. simpl. rewrite Hno. by apply P. Qed.

Lemma prefers_Str (lit : str) : forall n post g, prefers (Str lit) n lit post g g.
Proof.
  induction lit as [|c t IH]; intros n post g.
  - intros k res Hk. simpl in *. by rewrite Nat.add_0_r in Hk.
  - apply (prefers_Cat (Lit c) (Str t) n [c] t post g g g).
    + apply prefers_Lit.
    + apply IH.
Qed.

Lemma count_run_exact p hi (w post : str) : forall a,
  Forall (fun c => p c = true) w ->
  (forall h, hi = Some h -> a + length w <= h) ->
  (forall c, head post = Some c -> p c = false \/ hi = Some (a + length w)) ->
  count_run p hi a (w ++ post) = a + length w.
Proof.
  induction w as [|c w IH]; intros a Hw Hh Hstop; simpl.
  - destruct post as [|c t]; simpl; [lia|].
    destruct (Hstop c eq_refl) as [-> | ->]; simpl; [lia|].
    rewrite Nat.add_0_r, Nat.ltb_irrefl, andb_false_r. lia.
  - inversion Hw as [|? ? Hc Hw']; subst. rewrite Hc. simpl.
    assert (under_cap hi a = true) as ->.
    { destruct hi as [h|]; simpl; [|done]. apply Nat.ltb_lt.
      specialize (Hh h eq_refl). simpl in Hh. lia. }
    rewrite (IH (S a) Hw').
    + lia.
    + intros h Eh. specialize (Hh h Eh). simpl in Hh. lia.
    + intros c' Hc'. destruct (Hstop c' Hc') as [?| ->]; [by left|].
      right. f_equal. simpl. lia.
Qed.

(** A greedy repetition takes the whole run when what follows is no
    part of it. *)
Lemma prefers_Repeat_run lo p n (w post : str) g :
  lo <= length w -> Forall (fun c => p c = true) w ->
  (forall c, head post = Some c -> p c = false) ->
  prefers (Repeat lo None p) n w post g g.
Proof.
  intros Hlo Hw Hstop k res Hk. simpl.
  rewrite (count_run_exact p None w post 0 Hw); [|done|by left; apply Hstop].
  simpl. destruct (length w <? lo) eqn:E; [apply Nat.ltb_lt in E; lia|].
  apply try_down_first. replace (lo + (length w - lo)) with (length w) by lia.
  unfold advance. simpl. by rewrite drop_app_length.
Qed.

(** A repetition of exactly [m] characters. *)
Lemma prefers_Repeat_exact m p n (w post : str) g :
  length w = m -> Forall (fun c => p c = true) w ->
  prefers (Repeat m (Some m) p) n w post g g.
Proof.
  intros Hm Hw k res Hk. simpl.
  rewrite (count_run_exact p (Some m) w post 0 Hw).
  - simpl. rewrite Hm, Nat.ltb_irrefl. apply try_down_first.
    replace (m + (m - m)) with (length w) by lia.
    unfold advance. simpl. by rewrite drop_app_length.
  - intros h [= <-]. simpl. lia.
  - intros c _. right. simpl. by rewrite Hm.
Qed.

Lemma prefers_re_match pat (w post : str) g :
  prefers pat 0 w post ∅ g ->
  re_match pat (w ++ post) = Some (MState (length w) post g).
Proof. intros P. unfold re_match. by apply P. Qed.

End SreMore.

(** Build a match of a pattern written out constructor by constructor on
    a word bracketed like the pattern. *)
Ltac build_matches :=
  repeat first
    [ apply SreMore.matches_Str_intro
    | apply SreMore.matches_Lit_intro
    | apply SreMore.matches_Bol_intro
    | apply SreMore.matches_Eol_intro
    | eapply SreMore.matches_Group_intro
    | eapply SreMore.matches_Cat_intro ].

(** Follow the engine's preferred match through a pattern written out
    constructor by constructor. *)
Ltac follow_match :=
  repeat first
    [ apply SreMore.prefers_Str
    | apply SreMore.prefers_Lit
    | apply SreMore.prefers_Bol
    | apply SreMore.prefers_Eol
    | eapply SreMore.prefers_Group
    | eapply SreMore.prefers_Cat ].

(** The side conditions of a repetition, from the hypotheses at hand. *)
Ltac solve_repeat :=
  apply SreMore.matches_Repeat_intro;
  [ first [ lia
          | match goal with
            | Hn : ?w <> [] |- _ <= length ?w =>
                destruct w; simpl; [done|lia]
            end ]
  | let h := fresh in let E := fresh in
    intros h E; first [ discriminate E | injection E as <-; lia ]
  | match goal with
    | Hf : all_of _ ?w |- Forall _ ?w => exact Hf
    end ].

(** ** Lines that match, and only those *)

Section PatternsMore.
Context `{Env}.
Import SreFacts SreMore PyStrFacts.

Lemma all_of_forallb p (w : str) : forallb p w = true -> all_of p w.
Proof.
  unfold all_of. induction w as [|c w IH]; simpl; [constructor|].
  intros [Hc Hw]%andb_true_iff. constructor; auto.
Qed.

Lemma is_timestamp_elim (ts : str) :
  is_timestamp ts = true ->
  exists d t, ts = (d ++ [95%N]) ++ t
    /\ length d = 8 /\ length t = 6
    /\ all_of is_digit09 d /\ all_of is_digit09 t.
Proof.
  unfold is_timestamp. rewrite !andb_true_iff.
  intros [[[Hl Hd] H8] Ht].
  apply bool_decide_eq_true in Hl, H8.
  exists (take 8 ts), (drop 9 ts). split; [|split; [|split; [|split]]].
  - rewrite <- app_assoc. simpl. rewrite <- (drop_S _ _ _ H8).
    by rewrite take_drop.
  - rewrite length_take. lia.
  - rewrite length_drop. lia.
  - by apply all_of_forallb.
  - by apply all_of_forallb.
Qed.

Lemma length_nonempty (w : str) : w <> [] -> 1 <= length w.
Proof. destruct w; simpl; [done|lia]. Qed.

(** Every indexed backup line matches the [--list] pattern. *)
Lemma backup_pattern_complete (line ts ty : str) :
  backup_line line ts ty -> is_Some (re_match backup_pattern line).
Proof.
  intros (idx & ws & tail & -> & Hi & Fi & Hw & Fw & Hts & Hty).
  apply is_timestamp_elim in Hts as (d & t & -> & Ld & Lt & Fd & Ft).
  assert (Halt : forall at_ post g,
            matches (Alt (Str (u "FULL")) (Str (u "INC"))) at_ ty post g g).
  { intros. destruct Hty as [-> | ->];
      [apply matches_Alt_l | apply matches_Alt_r]; apply matches_Str_intro. }
  clear Hty.
  apply re_match_is_Some.
  exists ((((([] ++ [91%N]) ++ idx) ++ [93%N]) ++ ws)
          ++ (((((u "datezip_" ++ ((d ++ [95%N]) ++ t)) ++ [95%N]) ++ ty)
                ++ [46%N]) ++ u "zip")), tail.
  eexists. split.
  { unfold backup_name. by rewrite <- !app_assoc. }
  unfold backup_pattern.
  build_matches.
  all: try solve_repeat.
  apply Halt.
Qed.

(** On a line of the [--history] form whose file does not begin with
    white space, the match is this one and no other. *)
Lemma history_pattern_exact (d t ws1 ws2 file : str) mk :
  length d = 8 -> length t = 6 ->
  all_of is_digit09 d -> all_of is_digit09 t ->
  ws1 <> [] -> all_of is_space ws1 ->
  mk = 43%N \/ mk = 46%N ->
  ws2 <> [] -> all_of is_space ws2 ->
  file <> [] -> all_of is_dot file -> stops is_space file ->
  exists m,
    re_match history_pattern
      (((d ++ [95%N]) ++ t) ++ ws1 ++ [mk] ++ ws2 ++ file) = Some m
    /\ group m 1 = Some ((d ++ [95%N]) ++ t)
    /\ group m 2 = Some [mk]
    /\ group m 3 = Some file.
Proof.
  intros Ld Lt Fd Ft H1 F1 Hmk H2 F2 Hf Ff Hstop.
  eexists. split.
  - replace ((((d ++ [95%N]) ++ t) ++ ws1 ++ [mk] ++ ws2 ++ file))
      with (((((((([] ++ (d ++ [95%N]) ++ t) ++ ws1) ++ [mk]) ++ ws2) ++ file)
               ++ [])) ++ [])
      by (by rewrite !app_nil_r, <- !app_assoc).
    apply prefers_re_match. unfold history_pattern. follow_match.
    + by apply prefers_Repeat_exact.
    + by apply prefers_Repeat_exact.
    + apply prefers_Repeat_run; [by apply length_nonempty|done|].
      intros c [= <-]. by destruct Hmk as [-> | ->].
    + apply prefers_Cls. by destruct Hmk as [-> | ->].
    + apply prefers_Repeat_run; [by apply length_nonempty|done|].
      intros c Hc. apply Hstop. by destruct file.
    + apply prefers_Repeat_run; [by apply length_nonempty|done|done].
  - unfold group. simpl.
    by rewrite ?lookup_insert_eq, ?lookup_insert_ne by done.
Qed.

(** On an indexed backup line the match is this one and no other, as
    long as [\d] does not take the closing bracket for a digit. *)
Lemma backup_pattern_exact (line ts ty : str) :
  unicode_decimal 93 = false ->
  backup_line line ts ty ->
  exists m,
    re_match backup_pattern line = Some m
    /\ group m 1 = Some (backup_name ts ty)
    /\ group m 2 = Some ts
    /\ group m 3 = Some ty.
Proof.
  intros H93 (idx & ws & tail & -> & Hi & Fi & Hw & Fw & Hts & Hty).
  apply is_timestamp_elim in Hts as (d & t & -> & Ld & Lt & Fd & Ft).
  assert (Halt : forall n post g,
            prefers (Alt (Str (u "FULL")) (Str (u "INC"))) n ty post g g).
  { intros. destruct Hty as [-> | ->].
    - apply prefers_Alt_l, prefers_Str.
    - apply prefers_Alt_r; [done|apply prefers_Str]. }
  clear Hty.
  eexists. split.
  - replace (u "[" ++ idx ++ u "]" ++ ws
             ++ backup_name ((d ++ [95%N]) ++ t) ty ++ tail)
      with (((((([] ++ [91%N]) ++ idx) ++ [93%N]) ++ ws)
             ++ (((((u "datezip_" ++ ((d ++ [95%N]) ++ t)) ++ [95%N]) ++ ty)
                   ++ [46%N]) ++ u "zip")) ++ tail)
      by (unfold backup_name; by rewrite <- !app_assoc).
    apply prefers_re_match. unfold backup_pattern. follow_match.
    + apply prefers_Repeat_run; [by apply length_nonempty|done|].
      by intros c [= <-].
    + apply prefers_Repeat_run; [by apply length_nonempty|done|].
      by intros c [= <-].
    + by apply prefers_Repeat_exact.
    + by apply prefers_Repeat_exact.
    + apply Halt.
  - unfold group. simpl.
    rewrite ?lookup_insert_eq, ?lookup_insert_ne by done.
    unfold backup_name. by rewrite <- !app_assoc.
Qed.

End PatternsMore.

(** ** The parsing loops, line by line *)

Section ToolsMore.
Context `{Env}.
Import SreFacts SreMore PyStrFacts PyStrMore.

Lemma all_of_app_inv p (a b : str) : all_of p (a ++ b) -> all_of p a /\ all_of p b.
Proof. unfold all_of. apply Forall_app. Qed.

Lemma last_app_nonempty (a b : str) : b <> [] -> last (a ++ b) = last b.
Proof.
  intros Hb. rewrite last_app. destruct (last b) as [c|] eqn:E; [done|].
  by apply last_None in E.
Qed.

(** A line of the [--history] form is matched, and the file that is
    captured is the rest of the line from its first character that is
    not white space. *)
Lemma history_line_exact (line ts : str) mk (file : str) :
  history_line line ts mk file -> all_of is_dot file ->
  (forall c, last line = Some c -> is_space c = false) ->
  lstrip file <> []
  /\ exists m,
       re_match history_pattern line = Some m
       /\ group m 1 = Some ts
       /\ group m 2 = Some [mk]
       /\ group m 3 = Some (lstrip file).
Proof.
  intros (ws1 & ws2 & -> & Hts & H1 & F1 & Hmk & H2 & F2 & Hf) Ff Hlast.
  apply is_timestamp_elim in Hts as (d & t & -> & Ld & Lt & Fd & Ft).
  destruct (lstrip_split file) as (l & El & Fl).
  assert (Hne : lstrip file <> []).
  { intros E. rewrite E, app_nil_r in El. subst l.
    destruct (last file) as [c|] eqn:Ec; [|by apply last_None in Ec].
    assert (is_space c = true) as Hc.
    { apply last_Some in Ec as (f' & ->).
      apply all_of_app_inv in Fl as [_ Fc]. by inversion Fc. }
    rewrite (Hlast c) in Hc; [done|].
    rewrite !app_assoc. rewrite last_app_nonempty by done. done. }
  split; [done|].
  destruct (history_pattern_exact d t ws1 (ws2 ++ l) (lstrip file) mk)
    as (m & Hm & G1 & G2 & G3); try done.
  - by destruct ws2.
  - by apply all_of_app.
  - rewrite El in Ff. by apply all_of_app_inv in Ff as [_ ?].
  - intros c Hc. destruct (lstrip file) as [|a f'] eqn:E; [done|].
    injection Hc as <-. by eapply lstrip_head.
  - exists m. split; [|done]. rewrite <- Hm. f_equal.
    rewrite El at 1. by rewrite <- !app_assoc.
Qed.

(** How the two loops go over the lines. *)
Lemma foldl_picks {B} (R : str -> B -> Prop) (step : list B -> str -> list B) :
  (forall acc line,
     (exists b, R line b /\ step acc line = acc ++ [b])
     \/ ((forall b, ~ R line b) /\ step acc line = acc)) ->
  forall lines acc,
    exists out, foldl step acc lines = acc ++ out /\ picks R lines out.
Proof.
  intros Hstep. induction lines as [|l lines IH]; intros acc; simpl.
  - exists []. split; [by rewrite app_nil_r|constructor].
  - destruct (Hstep acc l) as [(b & Hb & ->)|(Hno & ->)].
    + destruct (IH (acc ++ [b])) as (out & -> & Hp).
      exists (b :: out). split; [by rewrite <- app_assoc|by constructor].
    + destruct (IH acc) as (out & -> & Hp).
      exists out. split; [done|by constructor].
Qed.

Lemma list_backups_step_cases acc line :
  (exists b, backup_of_line line b /\ list_backups_step acc line = acc ++ [b])
  \/ ((forall b, ~ backup_of_line line b) /\ list_backups_step acc line = acc).
Proof.
  unfold list_backups_step.
  destruct (re_match backup_pattern (strip line)) as [m|] eqn:Em.
  - left. eexists. split; [|done].
    apply backup_pattern_sound in Em as (ts & ty & Hf & G1 & G2 & G3).
    by exists ts, ty.
  - right. split; [|done]. intros b (ts & ty & Hf & _).
    apply backup_pattern_complete in Hf as [m Hm]. congruence.
Qed.

Lemma history_pattern_sound_dot (l : str) m :
  re_match history_pattern (strip l) = Some m ->
  exists ts marker file,
    history_line (strip l) ts marker file
    /\ all_of is_dot file
    /\ group m 1 = Some ts
    /\ group m 2 = Some [marker]
    /\ group m 3 = Some file.
Proof.
  intros Hm. apply re_match_sound in Hm as (w & post & E & Mp).
  unfold history_pattern in Mp. inv_matches. simplify_eq.
  match goal with
  | Hp : post = [] \/ post = [10%N] |- _ => destruct Hp as [->| ->]
  end.
  2: { exfalso. rewrite app_nil_r in E.
       apply strip_not_snoc_space in E. by vm_compute in E. }
  rewrite !app_nil_r in E. simpl in E.
  match type of E with
  | _ = ((((?ts ++ ?a) ++ [?x]) ++ ?b) ++ ?f) =>
      exists ts, x, f; split; [exists a, b|split; [done|]]
  end.
  - repeat split;
      [ by rewrite E, <- !app_assoc
      | apply is_timestamp_intro; [by apply exact_length..|done|done]
      | by eapply nonempty_of_length | done
      | match goal with
        | Hx : _ || _ = true |- _ =>
            apply orb_true_iff in Hx as [Hx|Hx]; apply N.eqb_eq in Hx; auto
        end
      | by eapply nonempty_of_length | done
      | by eapply nonempty_of_length ].
  - unfold group. match goal with Hc : caps _ = _ |- _ => rewrite Hc end.
    by rewrite ?lookup_insert_eq, ?lookup_insert_ne by done.
Qed.

Lemma status_of_group mk :
  mk = 43%N \/ mk = 46%N ->
  (if decide (Some [mk] = Some (u "+")) then u "new" else u "modified")
  = (if decide (mk = 43%N) then u "new" else u "modified").
Proof. intros [-> | ->]; by vm_compute. Qed.

Lemma history_line_marker (line ts : str) mk (file : str) :
  history_line line ts mk file -> mk = 43%N \/ mk = 46%N.
Proof. by intros (? & ? & _ & _ & _ & _ & ? & _). Qed.

Lemma get_history_step_cases acc line :
  (exists e, entry_of_line line e /\ get_history_step acc line = acc ++ [e])
  \/ ((forall e, ~ entry_of_line line e) /\ get_history_step acc line = acc).
Proof.
  unfold get_history_step.
  destruct (re_match history_pattern (strip line)) as [m|] eqn:Em.
  - left. eexists. split; [|done].
    apply history_pattern_sound_dot in Em as (ts & mk & file & Hf & Fd & G1 & G2 & G3).
    exists ts, mk, file. cbn [h_timestamp h_status h_file]. rewrite G1, G2, G3.
    rewrite (status_of_group mk) by (by eapply history_line_marker). done.
  - right. split; [|done]. intros e (ts & mk & file & Hf & Fd & _).
    destruct (history_line_exact _ _ _ _ Hf Fd (strip_last line))
      as (_ & m & Hm & _). congruence.
Qed.

(** X3. list_backups returns one element for each line of the indexed form,
    in the order of the lines, and nothing for any other line. *)
Theorem list_backups_picks w bs w' :
  list_backups w = (Ok bs, w') ->
  exists out err s,
    datezip [u "--list"] (fs w) = (Ok (0%Z, out, err), s)
    /\ picks backup_of_line (splitlines (strip out)) bs.
Proof.
  unfold list_backups, mbind, M_bind, bind, run_datezip.
  destruct (datezip _ (fs w)) as [[[[code out] err]|e] s]; [|done].
  case_decide; [done|]. intros [= <- <-].
  assert (code = 0%Z) as -> by lia.
  exists out, err, s. split; [done|].
  destruct (foldl_picks backup_of_line list_backups_step list_backups_step_cases
              (splitlines (strip out)) []) as (res & -> & Hp).
  done.
Qed.

(** X4. get_history returns one entry for each line of the history form, in
    the order of the lines, and nothing for any other line. *)
Theorem get_history_picks files from_ts to_ts w es w' :
  get_history files from_ts to_ts w = (Ok es, w') ->
  exists out err s,
    datezip (get_history_args files from_ts to_ts) (fs w)
      = (Ok (0%Z, out, err), s)
    /\ picks entry_of_line (splitlines (strip out)) es.
Proof.
  unfold get_history, mbind, M_bind, bind, run_datezip.
  destruct (datezip _ (fs w)) as [[[[code out] err]|e] s]; [|done].
  case_decide; [done|]. intros [= <- <-].
  assert (code = 0%Z) as -> by lia.
  exists out, err, s. split; [done|].
  destruct (foldl_picks entry_of_line get_history_step get_history_step_cases
              (splitlines (strip out)) []) as (res & -> & Hp).
  done.
Qed.

(** X5. A line of the history form yields exactly its timestamp, the status
    of its marker, and as file the rest of the line from the first
    character that is not white space: however the line is cut into
    white space and file, the entry is the same. *)
Theorem get_history_step_exact acc line ts mk file :
  history_line (strip line) ts mk file -> all_of is_dot file ->
  get_history_step acc line
  = acc ++ [{| h_timestamp := Some ts;
               h_status := if decide (mk = 43%N) then u "new" else u "modified";
               h_file := Some (lstrip file) |}]
  /\ stops is_space (lstrip file) /\ lstrip file <> [].
Proof.
  intros Hf Fd.
  destruct (history_line_exact _ _ _ _ Hf Fd (strip_last line))
    as (Hne & m & Hm & G1 & G2 & G3).
  split; [|split; [|done]].
  - unfold get_history_step. rewrite Hm, G1, G2, G3.
    by rewrite (status_of_group mk) by (by eapply history_line_marker).
  - intros c Hc. destruct (lstrip file) as [|a f'] eqn:E; [done|].
    injection Hc as <-. by eapply lstrip_head.
Qed.

(** X6. An indexed backup line yields exactly its archive name, timestamp
    and type, whatever its index and whatever follows the name, as long
    as [\d] does not take the closing bracket for a digit. *)
Theorem list_backups_step_exact acc line ts ty :
  unicode_decimal 93 = false ->
  backup_line (strip line) ts ty ->
  list_backups_step acc line
  = acc ++ [{| filename := Some (backup_name ts ty);
               timestamp := Some ts;
               type_ := Some ty |}].
Proof.
  intros H93 Hf.
  destruct (backup_pattern_exact _ _ _ H93 Hf) as (m & Hm & G1 & G2 & G3).
  unfold list_backups_step. by rewrite Hm, G1, G2, G3.
Qed.

(** X1. run_datezip hands on the exit code and the two outputs without the
    white space around them; it changes nothing else in them, and it
    records the call. *)
Theorem run_datezip_trims args w code out err w' :
  run_datezip args w = (Ok (code, out, err), w') ->
  exists raw_out raw_err s,
    datezip args (fs w) = (Ok (code, raw_out, raw_err), s)
    /\ trimmed raw_out out /\ trimmed raw_err err
    /\ w' = {| fs := s; invocations := invocations w ++ [args] |}.
Proof.
  unfold run_datezip.
  destruct (datezip args (fs w)) as [[[[c o] e]|e] s]; [|done].
  intros [= <- <- <- <-]. exists o, e, s.
  split; [done|]. split; [apply strip_trimmed|]. split; [apply strip_trimmed|done].
Qed.

End ToolsMore.

(** X2. The lines a tool works on hold every character of the output but the
    line boundaries, in order, and no line holds a line boundary. *)
Theorem splitlines_keeps_text (s : str) :
  concat (splitlines s) = filter (fun c => is_linebreak c = false) s
  /\ Forall no_linebreak (splitlines s).
Proof. apply PyStrMore.splitlines_spec. Qed.

(** ** Numbers and lists in the argument vector *)

Module ArgsFacts.

Lemma N_of_ascii_inj a b : N_of_ascii a = N_of_ascii b -> a = b.
Proof.
  intros E. rewrite <- (ascii_N_embedding a), <- (ascii_N_embedding b).
  by rewrite E.
Qed.

Lemma u_inj (a : string) : forall b, u a = u b -> a = b.
Proof.
  induction a as [|c a IH]; intros [|c' b]; simpl; try done.
  intros [= Ec Eb]. f_equal; [by apply N_of_ascii_inj|by apply IH].
Qed.

Lemma to_int_proper (n : Z) :
  Z.to_int n <> Decimal.Pos Decimal.Nil /\ Z.to_int n <> Decimal.Neg Decimal.Nil.
Proof.
  destruct n as [|p|p]; simpl; split; try done.
  - intros [= E]. by apply (Unsigned.to_uint_nonnil p).
  - intros [= E]. by apply (Unsigned.to_uint_nonnil p).
Qed.

(** [str] of an [int] tells the number. *)
Lemma str_of_int_inj (a b : Z) : str_of_int a = str_of_int b -> a = b.
Proof.
  unfold str_of_int. intros E%u_inj.
  destruct (to_int_proper a) as [Ha1 Ha2], (to_int_proper b) as [Hb1 Hb2].
  assert (E' : Some (Z.to_int a) = Some (Z.to_int b)).
  { rewrite <- (NilZero.isi (Z.to_int a)), <- (NilZero.isi (Z.to_int b)) by done.
    by rewrite E. }
  injection E' as E'.
  rewrite <- (DecimalZ.of_to a), <- (DecimalZ.of_to b). by rewrite E'.
Qed.

Lemma app_cons_unique (a a' : str) c (r r' : str) :
  c ∉ a -> c ∉ a' -> a ++ c :: r = a' ++ c :: r' -> a = a' /\ r = r'.
Proof.
  revert a'. induction a as [|x a IH]; intros [|y a'] Ha Ha'; simpl.
  - by intros [= ->].
  - intros [= <- _]. exfalso. apply Ha'. apply list_elem_of_here.
  - intros [= -> _]. exfalso. apply Ha. apply list_elem_of_here.
  - intros [= -> E]. apply IH in E as [-> ->]; [done| |].
    + intros Hc. apply Ha. by apply list_elem_of_further.
    + intros Hc. apply Ha'. by apply list_elem_of_further.
Qed.

Lemma join_cons2 (sep x y : str) l :
  join sep (x :: y :: l) = x ++ sep ++ join sep (y :: l).
Proof. done. Qed.

End ArgsFacts.

(** ** The remaining tools and the remaining ways through them *)

Section ToolsRest.
Context `{Env}.
Import OSFacts PyStrMore ArgsFacts.

Ltac run_rest :=
  unfold create_backup, restore_state, cleanup_backups,
    mbind, M_bind, bind, mret, M_ret, ret, run_datezip.

Ltac run_content :=
  unfold get_historical_content, try_finally, lift_fs,
    mbind, M_bind, bind, mret, M_ret, ret, run_datezip.

(** X7. cleanup_backups turns both numbers into decimal text, whatever
    their sign.  When both conversions go through, which they do exactly
    for numbers that are not [too_long] for the limit of the
    interpreter, the command is run once with
    [--cleanup --keep-full <n> --keep-days <m>], a vector that tells the
    two numbers, and the answer is made from the outcome of the command
    and from nothing else.  When a conversion is refused the call raises
    [ValueError]; the command is not run. *)
Theorem cleanup_backups_request keep_full keep_days w :
  match cleanup_backups_args keep_full keep_days with
  | Ok args =>
      too_long int_max_str_digits keep_full = false
      /\ too_long int_max_str_digits keep_days = false
      /\ args = [u "--cleanup"; u "--keep-full"; str_of_int keep_full;
                 u "--keep-days"; str_of_int keep_days]
      /\ invocations (cleanup_backups keep_full keep_days w).2
         = invocations w ++ [args]
      /\ (cleanup_backups keep_full keep_days w).1
         = match (datezip args (fs w)).1 with
           | Ok (code, out, err) =>
               if decide (code <> 0%Z)
               then Ok (u "Cleanup failed:" ++ nl ++ or_ (strip err) (strip out))
               else Ok (u "Cleanup successful:" ++ nl ++ strip out)
           | Raise e => Raise e
           end
      /\ (forall keep_full' keep_days',
            cleanup_backups_args keep_full' keep_days' = Ok args ->
            keep_full = keep_full' /\ keep_days = keep_days')
  | Raise e =>
      e = ValueError
      /\ (too_long int_max_str_digits keep_full = true
          \/ too_long int_max_str_digits keep_days = true)
      /\ cleanup_backups keep_full keep_days w = (Raise ValueError, w)
  end.
Proof.
  unfold cleanup_backups, mbind, M_bind, bind.
  unfold cleanup_backups_args, str_int.
  destruct (too_long int_max_str_digits keep_full) eqn:Hf; [by auto|].
  destruct (too_long int_max_str_digits keep_days) eqn:Hd; [by auto|].
  split; [done|]. split; [done|]. split; [done|].
  unfold mret, M_ret, ret, run_datezip.
  destruct (datezip _ (fs w)) as [[[[c o] e]|e] s]; cbn [fst snd invocations].
  - split; [by destruct (decide (c <> 0%Z))|].
    split; [by destruct (decide (c <> 0%Z))|].
    intros kf kd.
    destruct (too_long int_max_str_digits kf); [done|].
    destruct (too_long int_max_str_digits kd); [done|].
    intros [= E1 E2]. split; symmetry; by apply str_of_int_inj.
  - split; [done|]. split; [done|].
    intros kf kd.
    destruct (too_long int_max_str_digits kf); [done|].
    destruct (too_long int_max_str_digits kd); [done|].
    intros [= E1 E2]. split; symmetry; by apply str_of_int_inj.
Qed.

(** X8. create_backup, restore_state and cleanup_backups never raise
    because of the exit code of the command.  The first two raise
    exactly when running the command raises (the process cannot be
    started, or its output does not decode), with the same exception;
    cleanup_backups raises in that case and when a number is refused by
    [str], and in no other. *)
Theorem text_tools_raise_only_with_the_process mode timestamp files restore_type
    keep_full keep_days w e :
  ((create_backup mode w).1 = Raise e
   <-> (datezip (create_backup_args mode) (fs w)).1 = Raise e)
  /\ ((restore_state timestamp files restore_type w).1 = Raise e
      <-> (datezip (restore_state_args timestamp files restore_type) (fs w)).1
          = Raise e)
  /\ ((cleanup_backups keep_full keep_days w).1 = Raise e
      <-> match cleanup_backups_args keep_full keep_days with
          | Ok args => (datezip args (fs w)).1 = Raise e
          | Raise e' => e' = e
          end).
Proof.
  split; [|split]; run_rest.
  - destruct (datezip _ (fs w)) as [[[[c o] err]|e'] s];
      [case_decide|]; cbn [fst]; split; intros E; (done || by injection E as ->).
  - destruct (datezip _ (fs w)) as [[[[c o] err]|e'] s];
      [case_decide|]; cbn [fst]; split; intros E; (done || by injection E as ->).
  - destruct (cleanup_backups_args keep_full keep_days) as [args|e'].
    + destruct (datezip _ (fs w)) as [[[[c o] err]|e''] s];
        [case_decide|]; cbn [fst]; split; intros E;
        (done || by injection E as ->).
    + cbn [fst]. split; intros E; [by injection E|by subst].
Qed.

(** X9. When the restore fails, the detail shown is the standard error
    unless that is white space only; then it is the standard output. *)
Theorem restore_state_failure_detail timestamp files restore_type w
    code out err s :
  datezip (restore_state_args timestamp files restore_type) (fs w)
    = (Ok (code, out, err), s) ->
  code <> 0%Z ->
  (all_of is_space err ->
   (restore_state timestamp files restore_type w).1
   = Ok (u "Restore failed:" ++ nl ++ strip out))
  /\ (~ all_of is_space err ->
      (restore_state timestamp files restore_type w).1
      = Ok (u "Restore failed:" ++ nl ++ strip err)).
Proof.
  intros Hd Hc. run_rest. rewrite Hd. rewrite decide_True by done.
  split; intros He; cbn [fst]; do 2 f_equal.
  - apply strip_empty_iff in He. by rewrite He.
  - unfold or_. destruct (strip err) eqn:E; [|done].
    by apply strip_empty_iff in E.
Qed.

(** X10. When the command fails, get_historical_content answers with the
    error text; it does not raise and does not look into the scratch
    directory. *)
Theorem get_historical_content_command_failure timestamp filename w d s0
    code out err s1 :
  mkdtemp (tmp_candidates (fs w)) (fs w) = (Ok d, s0) ->
  datezip (get_historical_content_args timestamp filename d) s0
    = (Ok (code, out, err), s1) ->
  code <> 0%Z -> is_dir s1 d = true ->
  (get_historical_content timestamp filename w).1
  = Ok (u "Error retrieving historical content: " ++ or_ (strip err) (strip out)).
Proof.
  intros Hmk Hd Hc Hdir. run_content. rewrite Hmk. simpl. rewrite Hd. simpl.
  rewrite decide_True by done. simpl. unfold rmtree. by rewrite Hdir.
Qed.

(** X11. When the command has put a file at [d/filename], for a file
    name that walks down only, and the bytes of the file decode, the
    call returns the decoded text with its line ends translated, and
    the copy is gone afterwards. *)
Theorem get_historical_content_returns_restored_text timestamp filename w d s0
    out err s1 bytes text :
  mkdtemp (tmp_candidates (fs w)) (fs w) = (Ok d, s0) ->
  datezip (get_historical_content_args timestamp filename d) s0
    = (Ok (0%Z, out, err), s1) ->
  plain_relative filename = true ->
  starts_with_sep filename = false -> d <> [] -> ends_with_sep d = false ->
  files s1 !! (d ++ [sep] ++ filename) = Some bytes ->
  decode_text bytes = Some text ->
  is_dir s1 d = true ->
  (get_historical_content timestamp filename w).1 = Ok (universal_newlines text)
  /\ path_exists (fs (get_historical_content timestamp filename w).2)
       (d ++ [sep] ++ filename) = false.
Proof.
  intros Hmk Hd _ Hrel Hne Hsep Hfile Hdec Hdir.
  split.
  - assert (Hex : path_exists s1 (d ++ [sep] ++ filename) = true).
    { unfold path_exists, is_file. rewrite Hfile.
      apply orb_true_iff. right. by apply bool_decide_eq_true. }
    run_content. rewrite Hmk. simpl. rewrite Hd. simpl.
    rewrite path_join_relative by done. rewrite Hex. simpl. simpl in Hfile.
    unfold read_text. rewrite Hfile, Hdec. unfold rmtree. by rewrite Hdir.
  - rewrite (get_historical_content_world _ _ _ _ _ Hmk). cbn [fs].
    rewrite Hd. cbn [snd]. apply rmtree_clears; [done|].
    right. unfold below. by apply prefix_app, prefix_cons, prefix_nil.
Qed.

(** X12. When the name asked for is a directory of the restored tree, reading
    it raises. *)
Theorem get_historical_content_directory_raises timestamp filename w d s0
    out err s1 :
  mkdtemp (tmp_candidates (fs w)) (fs w) = (Ok d, s0) ->
  datezip (get_historical_content_args timestamp filename d) s0
    = (Ok (0%Z, out, err), s1) ->
  starts_with_sep filename = false -> d <> [] -> ends_with_sep d = false ->
  is_dir s1 (d ++ [sep] ++ filename) = true ->
  files s1 !! (d ++ [sep] ++ filename) = None ->
  is_dir s1 d = true ->
  (get_historical_content timestamp filename w).1 = Raise IsADirectoryError.
Proof.
  intros Hmk Hd Hrel Hne Hsep Hisdir Hfile Hdir.
  assert (Hex : path_exists s1 (d ++ [sep] ++ filename) = true).
  { unfold path_exists. by rewrite Hisdir. }
  run_content. rewrite Hmk. simpl. rewrite Hd. simpl.
  rewrite path_join_relative by done. rewrite Hex. simpl.
  simpl in Hfile, Hisdir.
  unfold read_text. rewrite Hfile, Hisdir. unfold rmtree. by rewrite Hdir.
Qed.

(** X13. If the command writes nowhere but below its destination, the file
    system outside the scratch directory is after the call what it was
    before. *)
Theorem get_historical_content_leaves_workspace timestamp filename w d s0 :
  mkdtemp (tmp_candidates (fs w)) (fs w) = (Ok d, s0) ->
  (forall p, p <> d -> ~ below d p ->
     is_dir (datezip (get_historical_content_args timestamp filename d) s0).2 p
     = is_dir s0 p
     /\ files (datezip (get_historical_content_args timestamp filename d) s0).2 !! p
        = files s0 !! p) ->
  forall p, p <> d -> ~ below d p ->
    is_dir (fs (get_historical_content timestamp filename w).2) p = is_dir (fs w) p
    /\ files (fs (get_historical_content timestamp filename w).2) !! p
       = files (fs w) !! p.
Proof.
  intros Hmk Hcmd p Hne Hnb.
  rewrite (get_historical_content_world _ _ _ _ _ Hmk). cbn [fs].
  destruct (rmtree_frame d
              (datezip (get_historical_content_args timestamp filename d) s0).2
              p Hne Hnb) as [-> ->].
  destruct (Hcmd p Hne Hnb) as [-> ->].
  destruct (mkdtemp_Ok _ _ _ _ Hmk) as (_ & -> & _).
  split; [|done]. unfold is_dir, mkdir. cbn [dirs].
  apply bool_decide_ext. rewrite elem_of_union, elem_of_singleton.
  intuition congruence.
Qed.

(** X14. If the command has done away with the scratch directory, [rmtree]
    raises in the [finally] clause, and that is how the call ends,
    whatever the body had to return. *)
Theorem get_historical_content_cleanup_error timestamp filename w d s0 :
  mkdtemp (tmp_candidates (fs w)) (fs w) = (Ok d, s0) ->
  path_exists (datezip (get_historical_content_args timestamp filename d) s0).2 d
    = false ->
  (get_historical_content timestamp filename w).1 = Raise FileNotFoundError.
Proof.
  intros Hmk Hgone. run_content. rewrite Hmk. simpl.
  destruct (datezip _ s0) as [[[[code out] err]|e] s1]; simpl in Hgone.
  all: apply orb_false_iff in Hgone as [Hd Hf].
  - simpl. case_decide; simpl.
    + unfold rmtree. by rewrite Hd, Hf.
    + destruct (path_exists s1 (path_join d filename));
        simpl; unfold rmtree; by rewrite Hd, Hf.
  - simpl. unfold rmtree. by rewrite Hd, Hf.
Qed.

End ToolsRest.

(** X15. The [--files] value tells the list of paths, as long as it is not
    empty and no path holds a comma. *)
Theorem join_comma_injective (l1 : list str) :
  forall l2 : list str,
    l1 <> [] -> l2 <> [] ->
    Forall (fun x : str => 44%N ∉ x) l1 ->
    Forall (fun x : str => 44%N ∉ x) l2 ->
    join (u ",") l1 = join (u ",") l2 -> l1 = l2.
Proof.
  induction l1 as [|x [|x2 l1'] IH]; intros [|y [|y2 l2']] H1 H2 F1 F2; try done.
  - simpl. by intros ->.
  - rewrite ArgsFacts.join_cons2. simpl join at 1. intros ->.
    inversion F1 as [|? ? Hx _]; subst. exfalso. apply Hx.
    apply elem_of_app. right. apply list_elem_of_here.
  - rewrite ArgsFacts.join_cons2. simpl join at 2. intros <-.
    inversion F2 as [|? ? Hy _]; subst. exfalso. apply Hy.
    apply elem_of_app. right. apply list_elem_of_here.
  - rewrite !ArgsFacts.join_cons2. intros E.
    inversion F1 as [|? ? Hx F1']; subst. inversion F2 as [|? ? Hy F2']; subst.
    apply (ArgsFacts.app_cons_unique x y 44%N) in E as [-> E]; [|done|done].
    f_equal. by apply IH.
Qed.

(** ** Runs that instantiate the further properties *)

Lemma run_datezip_trims_run :
  exists raw_out raw_err s,
    @datezip Demo.noisy [u "--list"] Demo.disk = (Ok (2%Z, raw_out, raw_err), s)
    /\ trimmed raw_out (u "nothing restored") /\ trimmed raw_err []
    /\ {| fs := Demo.disk; invocations := [[u "--list"]] |}
       = {| fs := s; invocations := invocations Demo.world ++ [[u "--list"]] |}.
Proof.
  apply (@run_datezip_trims Demo.noisy [u "--list"] Demo.world 2%Z
           (u "nothing restored") []
           {| fs := Demo.disk; invocations := [[u "--list"]] |}).
  vm_compute. reflexivity.
Defined.

Lemma list_backups_picks_run :
  exists out err s,
    @datezip Demo.env [u "--list"] (fs Demo.world) = (Ok (0%Z, out, err), s)
    /\ picks (@backup_of_line Demo.env) (splitlines (strip out))
         [ {| filename := Some (u "datezip_20240216_143000_FULL.zip");
              timestamp := Some Demo.ts1;
              type_ := Some (u "FULL") |};
           {| filename := Some (u "datezip_20240217_090000_INC.zip");
              timestamp := Some Demo.ts2;
              type_ := Some (u "INC") |} ].
Proof.
  apply (@list_backups_picks Demo.env Demo.world _
           {| fs := Demo.disk; invocations := [[u "--list"]] |}).
  vm_compute. reflexivity.
Defined.

Lemma get_history_picks_run :
  exists out err s,
    @datezip Demo.env (get_history_args None None None) (fs Demo.world)
      = (Ok (0%Z, out, err), s)
    /\ picks entry_of_line (splitlines (strip out))
         [ {| h_timestamp := Some Demo.ts1; h_status := u "new";
              h_file := Some (u "src/main.py") |};
           {| h_timestamp := Some Demo.ts2; h_status := u "modified";
              h_file := Some (u "src/main.py") |} ].
Proof.
  apply (@get_history_picks Demo.env None None None Demo.world _
           {| fs := Demo.disk; invocations := [[u "--history"]] |}).
  vm_compute. reflexivity.
Defined.

(** cleanup_backups at its defaults, with negative numbers, and with a
    number of 4301 digits, which [str] refuses at the usual limit; there
    the command is not run. *)
Example cleanup_backups_runs :
  @cleanup_backups Demo.env 10 14 Demo.world
  = (Ok (u "Cleanup successful:" ++ nl ++ u "Done"),
     {| fs := Demo.disk;
        invocations := [[u "--cleanup"; u "--keep-full"; u "10";
                         u "--keep-days"; u "14"]] |})
  /\ invocations (@cleanup_backups Demo.env (-3) 0 Demo.world).2
     = [[u "--cleanup"; u "--keep-full"; u "-3"; u "--keep-days"; u "0"]]
  /\ @cleanup_backups Demo.env (10 ^ 4300) 14 Demo.world
     = (Raise ValueError, Demo.world)
  /\ (@cleanup_backups Demo.env (10 ^ 4300 - 1) 14 Demo.world).1
     = Ok (u "Cleanup successful:" ++ nl ++ u "Done").
Proof. by vm_compute. Qed.

(** Reading in text mode: [\r\n] and a lone [\r] come out as [\n]; bytes
    that do not decode make the read raise. *)
Example read_text_runs :
  let s := {| dirs := ∅;
              files := {[ u "f" := [97; 13; 10; 98; 13; 99; 10]%N ]} |} in
  read_text Some (u "f") s = Ok [97; 10; 98; 10; 99; 10]%N
  /\ read_text (fun _ => None) (u "f") s = Raise UnicodeDecodeError.
Proof. by vm_compute. Qed.

(** The line is cut with one blank left to the file; the entry has none. *)
Lemma get_history_step_exact_run :
  get_history_step [] (u "20240217_090000   .  src/main.py")
  = [] ++ [{| h_timestamp := Some Demo.ts2;
              h_status := if decide (46%N = 43%N) then u "new" else u "modified";
              h_file := Some (lstrip (u " src/main.py")) |}]
  /\ stops is_space (lstrip (u " src/main.py"))
  /\ lstrip (u " src/main.py") <> [].
Proof.
  apply (get_history_step_exact [] (u "20240217_090000   .  src/main.py")
           Demo.ts2 46%N (u " src/main.py")).
  - exists (u "   "), (u " ").
    split; [by vm_compute|]. split; [by vm_compute|].
    split; [done|]. split; [by repeat constructor|].
    split; [by right|]. split; [done|]. split; [by repeat constructor|done].
  - by repeat constructor.
Defined.

Lemma list_backups_step_exact_run :
  @list_backups_step Demo.env [] (u " [17]   datezip_20240216_143000_FULL.zip  (12 MB)")
  = [] ++ [{| filename := Some (backup_name Demo.ts1 (u "FULL"));
              timestamp := Some Demo.ts1;
              type_ := Some (u "FULL") |}].
Proof.
  apply (@list_backups_step_exact Demo.env []
           (u " [17]   datezip_20240216_143000_FULL.zip  (12 MB)")
           Demo.ts1 (u "FULL")).
  - reflexivity.
  - exists (u "17"), (u "   "), (u "  (12 MB)").
    split; [by vm_compute|]. split; [done|]. split; [by repeat constructor|].
    split; [done|]. split; [by repeat constructor|].
    split; [by vm_compute|by left].
Defined.

Lemma restore_state_failure_detail_run :
  (all_of is_space (u " " ++ nl) ->
   (@restore_state Demo.noisy Demo.ts1 None (u "e") Demo.world).1
   = Ok (u "Restore failed:" ++ nl ++ strip (nl ++ u "  nothing restored " ++ nl)))
  /\ (~ all_of is_space (u " " ++ nl) ->
      (@restore_state Demo.noisy Demo.ts1 None (u "e") Demo.world).1
      = Ok (u "Restore failed:" ++ nl ++ strip (u " " ++ nl))).
Proof.
  apply (@restore_state_failure_detail Demo.noisy Demo.ts1 None (u "e") Demo.world
           2%Z (nl ++ u "  nothing restored " ++ nl) (u " " ++ nl) Demo.disk).
  - reflexivity.
  - discriminate.
Defined.

Lemma get_historical_content_command_failure_run :
  (@get_historical_content Demo.broken Demo.ts1 (u "src/main.py") Demo.world).1
  = Ok (u "Error retrieving historical content: "
        ++ or_ (strip (u "datezip: no backup directory" ++ nl)) (strip [])).
Proof.
  apply (@get_historical_content_command_failure Demo.broken Demo.ts1
           (u "src/main.py") Demo.world Demo.tmp (mkdir Demo.tmp Demo.disk)
           1%Z [] (u "datezip: no backup directory" ++ nl)
           (mkdir Demo.tmp Demo.disk)).
  - vm_compute. reflexivity.
  - reflexivity.
  - discriminate.
  - vm_compute. reflexivity.
Defined.

Lemma get_historical_content_returns_restored_text_run :
  (@get_historical_content Demo.env Demo.ts1 (u "src/main.py") Demo.world).1
  = Ok (universal_newlines (u "print('then')"))
  /\ path_exists
       (fs (@get_historical_content Demo.env Demo.ts1 (u "src/main.py") Demo.world).2)
       (Demo.tmp ++ [sep] ++ u "src/main.py") = false.
Proof.
  apply (@get_historical_content_returns_restored_text Demo.env Demo.ts1
           (u "src/main.py") Demo.world Demo.tmp (mkdir Demo.tmp Demo.disk)
           (u "Restored 1 file") []
           (Demo.run (get_historical_content_args Demo.ts1 (u "src/main.py") Demo.tmp)
              (mkdir Demo.tmp Demo.disk)).2
           (u "print('then')") (u "print('then')")).
  - vm_compute. reflexivity.
  - vm_compute. reflexivity.
  - vm_compute. reflexivity.
  - reflexivity.
  - discriminate.
  - reflexivity.
  - vm_compute. reflexivity.
  - reflexivity.
  - vm_compute. reflexivity.
Defined.

Lemma get_historical_content_directory_raises_run :
  (@get_historical_content Demo.whole Demo.ts1 (u "src") Demo.world).1
  = Raise IsADirectoryError.
Proof.
  apply (@get_historical_content_directory_raises Demo.whole Demo.ts1
           (u "src") Demo.world Demo.tmp (mkdir Demo.tmp Demo.disk)
           (u "Restored 1 file") []
           (@datezip Demo.whole (get_historical_content_args Demo.ts1 (u "src") Demo.tmp)
              (mkdir Demo.tmp Demo.disk)).2).
  - vm_compute. reflexivity.
  - vm_compute. reflexivity.
  - reflexivity.
  - discriminate.
  - reflexivity.
  - vm_compute. reflexivity.
  - vm_compute. reflexivity.
  - vm_compute. reflexivity.
Defined.

Lemma get_historical_content_leaves_workspace_run :
  is_dir (fs (@get_historical_content Demo.env Demo.ts1 (u "README") Demo.world).2)
    (u "/work/src") = is_dir Demo.disk (u "/work/src")
  /\ files (fs (@get_historical_content Demo.env Demo.ts1 (u "README") Demo.world).2)
       !! Demo.live = files Demo.disk !! Demo.live.
Proof.
  split.
  - apply (@get_historical_content_leaves_workspace Demo.env Demo.ts1 (u "README")
             Demo.world Demo.tmp (mkdir Demo.tmp Demo.disk)).
    + vm_compute. reflexivity.
    + intros p _ _. split; reflexivity.
    + discriminate.
    + apply (bool_decide_unpack _). by vm_compute.
  - apply (@get_historical_content_leaves_workspace Demo.env Demo.ts1 (u "README")
             Demo.world Demo.tmp (mkdir Demo.tmp Demo.disk)).
    + vm_compute. reflexivity.
    + intros p _ _. split; reflexivity.
    + discriminate.
    + apply (bool_decide_unpack _). by vm_compute.
Defined.

Lemma get_historical_content_cleanup_error_run :
  (@get_historical_content Demo.wiper Demo.ts1 (u "README") Demo.world).1
  = Raise FileNotFoundError.
Proof.
  apply (@get_historical_content_cleanup_error Demo.wiper Demo.ts1 (u "README")
           Demo.world Demo.tmp (mkdir Demo.tmp Demo.disk)).
  - vm_compute. reflexivity.
  - vm_compute. reflexivity.
Defined.

Lemma join_comma_injective_run :
  [u "src/main.py"; u "README"] = [u "src/main.py"; u "README"].
Proof.
  apply (join_comma_injective [u "src/main.py"; u "README"]
           [u "src/main.py"; u "README"]).
  - discriminate.
  - discriminate.
  - repeat constructor; apply (bool_decide_unpack _); by vm_compute.
  - repeat constructor; apply (bool_decide_unpack _); by vm_compute.
  - reflexivity.
Defined.
